(** * RVCI firmware: a shallow embedding of [firmware.ino]

    The sketch samples five potentiometers, prints them as one
    [|]-separated line per cycle, and reports the rising edges of two
    switch inputs as fixed text lines.  The embedding keeps the shape of
    the sketch: the globals live in a [Board] record, the Arduino calls
    ([analogRead], [digitalRead], [delay], [Serial.println]) are the
    primitive operations of a small state-and-fault monad, and [loop] is
    written statement by statement.

    Time is explicit.  The board carries a millisecond clock that only
    [delay] advances; the outside world is a pair of signals (a value per
    pin and instant), sampled at the instant of each read.  Every
    hardware interaction is logged, with its time stamp, in a trace. *)

From stdpp Require Import base option list strings.
From Stdlib Require Import ZArith Lia Ascii.

Local Open Scope string_scope.
Local Open Scope list_scope.
Local Open Scope Z_scope.

(** ** Arduino vocabulary used by the sketch *)

(** The two values [digitalRead] can return. *)
Inductive level := LOW | HIGH.

#[global] Instance level_eq_dec : EqDecision level.
Proof. solve_decision. Defined.

Inductive pin_mode := INPUT | INPUT_PULLUP.

(** Pin handles.  The sketch names its analog inputs [A1]..[A5] (board
    constants) and its switch inputs by digital pin number. *)
Inductive pin :=
| AnalogPin (k : Z)
| DigitalPin (n : Z).

#[global] Instance pin_eq_dec : EqDecision pin.
Proof. solve_decision. Defined.

Definition A1 := AnalogPin 1.
Definition A2 := AnalogPin 2.
Definition A3 := AnalogPin 3.
Definition A4 := AnalogPin 4.
Definition A5 := AnalogPin 5.

(** ** The [int] type of the target and [String(int)] *)

(** The sketch targets an Arduino Nano, whose [int] is 16 bits wide,
    two's complement. *)
Definition int16 (z : Z) : Z := (z + 32768) mod 65536 - 32768.

Definition digit_char (d : Z) : ascii := ascii_of_nat (Z.to_nat (48 + d)).

(** Digits of an unsigned value, least significant first, pushed in
    front of [acc]; [fuel] extra digits at most. *)
Fixpoint utoa_acc (fuel : nat) (u : Z) (acc : string) : string :=
  let acc' := String (digit_char (u mod 10)) acc in
  match fuel with
  | O => acc'
  | S fuel' => if u / 10 =? 0 then acc' else utoa_acc fuel' (u / 10) acc'
  end.

(** A 16-bit magnitude has at most five decimal digits. *)
Definition utoa (u : Z) : string := utoa_acc 4 u "".

(** [itoa(value, buf, 10)], the C library conversion behind the Arduino
    [String(int)] constructor: a minus sign for negative values, then
    the magnitude. *)
Definition itoa (v : Z) : string :=
  if v <? 0 then String "-" (utoa (- v)) else utoa v.

(** [String((int)x)] *)
Definition String_of_int (x : Z) : string := itoa (int16 x).

(** ** The outside world and the board *)

(** What the pins carry, as a function of the pin and of the time in
    milliseconds. *)
Record Env := mkEnv {
  adc : pin -> Z -> Z;
  gpio : pin -> Z -> level
}.

(** One logged interaction with the hardware. *)
Inductive io_event :=
| EvPinMode (p : pin) (m : pin_mode)
| EvSerialBegin (baud : Z)
| EvAnalogRead (t : Z) (p : pin) (v : Z)
| EvDigitalRead (t : Z) (p : pin) (v : level)
| EvPrintln (t : Z) (line : string).

(** The globals of the sketch, the clock and the log. *)
Record Board := mkBoard {
  millis : Z;
  analogSliderValues : list Z;
  prevSwitchState2 : level;
  prevSwitchState3 : level;
  trace : list io_event
}.

(** ** The monad of the sketch

    A computation reads and updates the board; [None] stands for an
    array access outside its bounds, which C++ leaves undefined. *)
Definition M (A : Type) : Type := Board -> option (A * Board).

#[global] Instance M_ret : MRet M := fun A (a : A) (s : Board) => Some (a, s).
#[global] Instance M_bind : MBind M := fun A B (f : A -> M B) (m : M A) (s : Board) =>
  match m s with
  | Some (a, s') => f a s'
  | None => None
  end.

Definition fault {A} : M A := fun _ => None.

Definition log (e : io_event) : M unit := fun s =>
  Some (tt, mkBoard (millis s) (analogSliderValues s) (prevSwitchState2 s)
                    (prevSwitchState3 s) (trace s ++ [e])).

Definition now : M Z := fun s => Some (millis s, s).

(** [for (int i = first; i < first + count; i++)] with a loop-carried
    local of type [A]. *)
Fixpoint for_loop {A} (count : nat) (i : nat) (a : A) (body : nat -> A -> M A) : M A :=
  match count with
  | O => mret a
  | S count' => a' ← body i a; for_loop count' (S i) a' body
  end.

Section Sketch.

Variable env : Env.

(** *** Arduino primitives *)

Definition pinMode (p : pin) (m : pin_mode) : M unit := log (EvPinMode p m).

Definition Serial_begin (baud : Z) : M unit := log (EvSerialBegin baud).

Definition delay (ms : Z) : M unit := fun s =>
  Some (tt, mkBoard (millis s + ms) (analogSliderValues s) (prevSwitchState2 s)
                    (prevSwitchState3 s) (trace s)).

Definition analogRead (p : pin) : M Z :=
  t ← now; let v := int16 (adc env p t) in log (EvAnalogRead t p v);; mret v.

Definition digitalRead (p : pin) : M level :=
  t ← now; let v := gpio env p t in log (EvDigitalRead t p v);; mret v.

Definition Serial_println (line : string) : M unit :=
  t ← now; log (EvPrintln t line).

(** *** Globals *)

Definition NUM_SLIDERS : nat := 5.
Definition analogInputs : list pin := [A1; A2; A3; A4; A5].
Definition switchPin2 : pin := DigitalPin 7.
Definition switchPin3 : pin := DigitalPin 6.

(** [analogInputs[i]] *)
Definition analogInputs_at (i : nat) : M pin :=
  match analogInputs !! i with
  | Some p => mret p
  | None => fault
  end.

(** [analogSliderValues[i]] *)
Definition analogSliderValues_at (i : nat) : M Z := fun s =>
  match analogSliderValues s !! i with
  | Some v => Some (v, s)
  | None => None
  end.

(** [analogSliderValues[i] = v] *)
Definition set_analogSliderValues (i : nat) (v : Z) : M unit := fun s =>
  if decide (i < length (analogSliderValues s))%nat
  then Some (tt, mkBoard (millis s) (<[i := v]> (analogSliderValues s))
                         (prevSwitchState2 s) (prevSwitchState3 s) (trace s))
  else None.

Definition get_prevSwitchState2 : M level := fun s => Some (prevSwitchState2 s, s).
Definition get_prevSwitchState3 : M level := fun s => Some (prevSwitchState3 s, s).

Definition set_prevSwitchState2 (v : level) : M unit := fun s =>
  Some (tt, mkBoard (millis s) (analogSliderValues s) v (prevSwitchState3 s) (trace s)).

Definition set_prevSwitchState3 (v : level) : M unit := fun s =>
  Some (tt, mkBoard (millis s) (analogSliderValues s) (prevSwitchState2 s) v (trace s)).

(** *** The functions of the sketch *)

Definition setup : M unit :=
  pinMode switchPin2 INPUT_PULLUP;;
  pinMode switchPin3 INPUT_PULLUP;;
  for_loop NUM_SLIDERS 0 tt (fun i _ =>
    p ← analogInputs_at i; pinMode p INPUT);;
  Serial_begin 9600.

Definition updateSliderValues : M unit :=
  for_loop NUM_SLIDERS 0 tt (fun i _ =>
    p ← analogInputs_at i;
    v ← analogRead p;
    set_analogSliderValues i v).

(** The body of [sendSliderValues] for a build with [n] sliders. *)
Definition sendSliderValues_for (n : nat) : M unit :=
  builtString ← for_loop n 0 "" (fun i builtString =>
    v ← analogSliderValues_at i;
    let builtString := (builtString ++ String_of_int v)%string in
    mret (if Z.of_nat i <? Z.of_nat n - 1
          then (builtString ++ "|")%string
          else builtString));
  Serial_println builtString.

Definition sendSliderValues : M unit := sendSliderValues_for NUM_SLIDERS.

Definition loop : M unit :=
  updateSliderValues;;
  delay 20;;
  sendSliderValues;;
  delay 100;;
  switchState2 ← digitalRead switchPin2;
  switchState3 ← digitalRead switchPin3;
  prev2 ← get_prevSwitchState2;
  (if decide (switchState2 ≠ prev2) then
     (if decide (switchState2 = HIGH) then Serial_println "WORKS 2" else mret tt);;
     set_prevSwitchState2 switchState2;;
     delay 50
   else mret tt);;
  prev3 ← get_prevSwitchState3;
  (if decide (switchState3 ≠ prev3) then
     (if decide (switchState3 = HIGH) then Serial_println "WORKS 1" else mret tt);;
     set_prevSwitchState3 switchState3;;
     delay 50
   else mret tt);;
  delay 20.

(** The first [n] iterations of the endless [loop()]. *)
Fixpoint cycles (n : nat) : M unit :=
  match n with
  | O => mret tt
  | S n' => cycles n';; loop
  end.

End Sketch.

(** The board at power-on: clock at zero, zero-initialised array, both
    stored switch states [LOW], nothing logged. *)
Definition power_on : Board := mkBoard 0 [0; 0; 0; 0; 0] LOW LOW [].

(** The sketch as the Arduino core runs it: [setup()] once, then
    [loop()] again and again; [firmware env n] is the board after the
    first [n] iterations. *)
Definition firmware (env : Env) (n : nat) : option Board :=
  snd <$> (setup;; cycles env n) power_on.

(** ** Reading the trace *)

(** The lines handed to [Serial.println], oldest first. *)
Definition serial_lines (tr : list io_event) : list string :=
  omap (fun e => match e with EvPrintln _ l => Some l | _ => None end) tr.

(** Modelled from the spec: the line terminator that [Serial.println]
    (Arduino core, not part of the sketch) writes after its argument;
    the spec gives it as one newline character. *)
Definition println_terminator : string := String (ascii_of_nat 10) "".

(** The bytes on the serial wire. *)
Definition serial_bytes (tr : list io_event) : string :=
  String.concat "" ((fun l => l ++ println_terminator)%string <$> serial_lines tr).

(** The instants at which [line] was printed. *)
Definition line_times (line : string) (tr : list io_event) : list Z :=
  omap (fun e => match e with
                 | EvPrintln t l => if decide (l = line) then Some t else None
                 | _ => None
                 end) tr.

(** How many times [line] was printed. *)
Definition line_count (line : string) (tr : list io_event) : nat :=
  length (line_times line tr).

(** The levels [digitalRead] returned for pin [p], oldest first, and
    the instants of those reads. *)
Definition polled (p : pin) (tr : list io_event) : list level :=
  omap (fun e => match e with
                 | EvDigitalRead _ q v => if decide (q = p) then Some v else None
                 | _ => None
                 end) tr.

Definition poll_times (p : pin) (tr : list io_event) : list Z :=
  omap (fun e => match e with
                 | EvDigitalRead t q _ => if decide (q = p) then Some t else None
                 | _ => None
                 end) tr.

(** The values [analogRead] returned, and the levels [digitalRead]
    returned, in the order of the calls. *)
Definition analog_values (tr : list io_event) : list Z :=
  omap (fun e => match e with EvAnalogRead _ _ v => Some v | _ => None end) tr.

Definition digital_values (tr : list io_event) : list level :=
  omap (fun e => match e with EvDigitalRead _ _ v => Some v | _ => None end) tr.

(** The analog pins read, in the order of the calls. *)
Definition analog_pins (tr : list io_event) : list pin :=
  omap (fun e => match e with EvAnalogRead _ p _ => Some p | _ => None end) tr.

(** ** Vocabulary of the statements *)

(** Number of [LOW] to [HIGH] steps between neighbours of a sequence of
    levels. *)
Fixpoint rising_edges (ls : list level) : nat :=
  match ls with
  | LOW :: ((HIGH :: _) as rest) => S (rising_edges rest)
  | _ :: rest => rising_edges rest
  | [] => O
  end.

(** Every change between neighbours is from [HIGH] to [LOW]. *)
Fixpoint only_falling (ls : list level) : Prop :=
  match ls with
  | x :: ((y :: _) as rest) => (x ≠ y -> x = HIGH ∧ y = LOW) ∧ only_falling rest
  | _ => True
  end.

Fixpoint count_char (c : ascii) (s : string) : nat :=
  match s with
  | EmptyString => O
  | String d r => (if Ascii.eqb d c then 1 else 0) + count_char c r
  end%nat.

Definition head_char (s : string) : option ascii :=
  match s with
  | EmptyString => None
  | String c _ => Some c
  end.

Fixpoint last_char (s : string) : option ascii :=
  match s with
  | EmptyString => None
  | String c EmptyString => Some c
  | String _ r => last_char r
  end.

(** The frame line for the readings [vs]: their decimal forms joined by
    the delimiter. *)
Definition frame_of (vs : list Z) : string :=
  String.concat "|" (String_of_int <$> vs).

(** The array of the sketch has its declared size. *)
Definition wf (s : Board) : Prop := length (analogSliderValues s) = NUM_SLIDERS.

(** ** One iteration in closed form

    What [loop] does to a well-formed board, written out: the five
    readings are taken at the start of the iteration, the frame goes out
    20 ms later, both switches are read 100 ms after that, and each
    switch whose level differs from the stored one costs 50 ms.
    Lemma [loop_step] proves that [loop] computes exactly this. *)

Definition debounce_delay (prev read : level) : Z :=
  if decide (read ≠ prev) then 50 else 0.

Definition edge_line (t : Z) (line : string) (prev read : level) : list io_event :=
  if decide (read ≠ prev)
  then (if decide (read = HIGH) then [EvPrintln t line] else [])
  else [].

Definition sampled (env : Env) (t : Z) : list Z :=
  (fun p => int16 (adc env p t)) <$> analogInputs.

Definition cycle_trace (env : Env) (t : Z) (prev2 prev3 : level) : list io_event :=
  let sw2 := gpio env switchPin2 (t + 120) in
  let sw3 := gpio env switchPin3 (t + 120) in
  zip_with (EvAnalogRead t) analogInputs (sampled env t) ++
  [EvPrintln (t + 20) (frame_of (sampled env t));
   EvDigitalRead (t + 120) switchPin2 sw2;
   EvDigitalRead (t + 120) switchPin3 sw3] ++
  edge_line (t + 120) "WORKS 2" prev2 sw2 ++
  edge_line (t + 120 + debounce_delay prev2 sw2) "WORKS 1" prev3 sw3.

Definition loop_result (env : Env) (s : Board) : Board :=
  let t := millis s in
  let sw2 := gpio env switchPin2 (t + 120) in
  let sw3 := gpio env switchPin3 (t + 120) in
  mkBoard (t + 140 + debounce_delay (prevSwitchState2 s) sw2
                   + debounce_delay (prevSwitchState3 s) sw3)
          (sampled env t) sw2 sw3
          (trace s ++ cycle_trace env t (prevSwitchState2 s) (prevSwitchState3 s)).

(** [n] iterations in closed form, and the events they log. *)
Fixpoint run (env : Env) (n : nat) (s : Board) : Board :=
  match n with
  | O => s
  | S n' => loop_result env (run env n' s)
  end.

Fixpoint run_trace (env : Env) (n : nat) (s : Board) : list io_event :=
  match n with
  | O => []
  | S n' =>
      let s' := run env n' s in
      run_trace env n' s ++
      cycle_trace env (millis s') (prevSwitchState2 s') (prevSwitchState3 s')
  end.

(** The board once [setup()] has returned. *)
Definition booted : Board :=
  mkBoard 0 [0; 0; 0; 0; 0] LOW LOW
    [EvPinMode switchPin2 INPUT_PULLUP; EvPinMode switchPin3 INPUT_PULLUP;
     EvPinMode A1 INPUT; EvPinMode A2 INPUT; EvPinMode A3 INPUT;
     EvPinMode A4 INPUT; EvPinMode A5 INPUT; EvSerialBegin 9600].

(** Each element is at least [d] below every later one. *)
Fixpoint spaced (d : Z) (ts : list Z) : Prop :=
  match ts with
  | [] => True
  | a :: rest => Forall (fun b => a + d <= b) rest ∧ spaced d rest
  end.

(** The last level of a non-empty sequence given by head and tail. *)
Definition last_level (p : level) (ls : list level) : level := List.last ls p.

(** The two switch slots of the sketch: the pin each one reads, the
    global that stores its last level, and the line its rising edge
    prints. *)
Inductive slot := Switch2 | Switch3.

Definition slot_pin (k : slot) : pin :=
  match k with Switch2 => switchPin2 | Switch3 => switchPin3 end.

Definition slot_state (k : slot) (s : Board) : level :=
  match k with Switch2 => prevSwitchState2 s | Switch3 => prevSwitchState3 s end.

Definition slot_line (k : slot) : string :=
  match k with Switch2 => "WORKS 2" | Switch3 => "WORKS 1" end.

Definition pick {A} (k : slot) (x2 x3 : A) : A :=
  match k with Switch2 => x2 | Switch3 => x3 end.

(** A poll that finds [read] while [prev] is stored reports an Event. *)
Definition fires (prev read : level) : Prop := read ≠ prev ∧ read = HIGH.

Definition other (k : slot) : slot :=
  match k with Switch2 => Switch3 | Switch3 => Switch2 end.

(** Everything the firmware has logged after [n] iterations. *)
Definition firmware_log (env : Env) (n : nat) : list io_event :=
  from_option trace [] (firmware env n).

(** The printed lines that are not switch event lines. *)
Definition frame_lines (tr : list io_event) : list string :=
  filter (fun l => l ≠ slot_line Switch2 ∧ l ≠ slot_line Switch3) (serial_lines tr).

(** Neighbours are at most [g] apart. *)
Fixpoint gaps_le (g : Z) (ts : list Z) : Prop :=
  match ts with
  | a :: ((b :: _) as rest) => b <= a + g ∧ gaps_le g rest
  | _ => True
  end.

(** The level of a switch that is idle ([HIGH]) except while it is held
    down, from instant [a] up to instant [b]. *)
Definition held_down (a b : Z) (t : Z) : level :=
  if (a <=? t) && (t <? b) then LOW else HIGH.

(** The characters [itoa] can produce: the minus sign and the digits. *)
Definition decimal_char (c : ascii) : bool :=
  (Ascii.eqb c "-" || ((48 <=? nat_of_ascii c)%nat && (nat_of_ascii c <=? 57)%nat))%bool.

(** The number a string of decimal digits denotes. *)
Definition digit_value (c : ascii) : Z := Z.of_nat (nat_of_ascii c) - 48.

Fixpoint decimal_value (s : string) : Z :=
  match s with
  | EmptyString => 0
  | String c r => digit_value c * 10 ^ Z.of_nat (String.length r) + decimal_value r
  end.

(** ** Sample environments *)

(** Potentiometers at fixed positions; both switches idle ([HIGH])
    except that the switch on pin 7 is held down from 300 ms to 600 ms. *)
Definition env_toggle : Env :=
  mkEnv (fun p _ => match p with
                    | AnalogPin 1 => 512
                    | AnalogPin 2 => 0
                    | AnalogPin 3 => 1023
                    | AnalogPin 4 => 256
                    | _ => 999
                    end)
        (fun p t => match p with
                    | DigitalPin 7 => held_down 300 600 t
                    | _ => HIGH
                    end).

(** Nothing ever moves: all potentiometers at zero, both switches idle. *)
Definition env_idle : Env := mkEnv (fun _ _ => 0) (fun _ _ => HIGH).

(** Both switches held down for good. *)
Definition env_pressed : Env := mkEnv (fun _ _ => 0) (fun _ _ => LOW).

(** As [env_toggle] at every instant and pin the firmware looks at
    during its first four iterations, different elsewhere: other pins
    carry other values, and the pins it reads wobble between its reads. *)
Definition env_toggle_noisy : Env :=
  mkEnv (fun p t => match p with
                    | AnalogPin 1 => if t mod 10 =? 0 then 512 else 77
                    | AnalogPin 2 => 0
                    | AnalogPin 3 => 1023
                    | AnalogPin 4 => 256
                    | AnalogPin 5 => 999
                    | _ => 5
                    end)
        (fun p t => match p with
                    | DigitalPin 7 =>
                        if (300 <=? t) && (t <? 600) then LOW
                        else if (130 <=? t) && (t <? 140) then LOW else HIGH
                    | DigitalPin 6 => HIGH
                    | _ => LOW
                    end).

(** The switch on pin 7 is down until 200 ms, up until 400 ms, down
    until 600 ms and up from then on; the switch on pin 6 stays down. *)
Definition env_blink : Env :=
  mkEnv (fun _ _ => 0)
        (fun p t => match p with
                    | DigitalPin 7 =>
                        if t <? 200 then LOW
                        else if t <? 400 then HIGH
                        else if t <? 600 then LOW else HIGH
                    | _ => LOW
                    end).

(** A board whose stored switch states are both [HIGH]. *)
Definition latched_high : Board := mkBoard 240 [0; 0; 0; 0; 0] HIGH HIGH [].

(** Both switches idle, except that the switch on pin 7 is held down
    from 130 ms to 190 ms: 60 ms, longer than the blanking interval. *)
Definition env_short_press : Env :=
  mkEnv (fun _ _ => 0)
        (fun p t => match p with
                    | DigitalPin 7 => held_down 130 190 t
                    | _ => HIGH
                    end).

(** ** The debug printer

    [printSliderValues] talks to the port through [Serial.write], which
    sends its bytes as they are, with no line terminator.  The bytes the
    port has carried so far are passed along explicitly. *)

(** The C character ['\n']. *)
Definition LF : ascii := "010"%char.

(** [Serial.write(bytes)] on a port that has carried [wire] so far. *)
Definition Serial_write (bytes : string) (wire : string) : M string :=
  mret (wire ++ bytes)%string.

Definition printSliderValues (wire : string) : M string :=
  for_loop NUM_SLIDERS 0 wire (fun i wire =>
    v ← analogSliderValues_at i;
    let printedString :=
      (((("Slider #" ++ String_of_int (Z.of_nat i + 1)) ++ ": ")
          ++ String_of_int v) ++ " mV")%string in
    wire ← Serial_write printedString wire;
    if Z.of_nat i <? Z.of_nat NUM_SLIDERS - 1
    then Serial_write " | " wire
    else Serial_write (String LF "") wire).

(** ** Reading a frame line back

    What a host does with a frame line: cut it at the delimiters and
    read each field as a signed decimal number. *)

(** The fields of a line, cut at every ['|']. *)
Fixpoint split_bar (s : string) : list string :=
  match s with
  | EmptyString => [EmptyString]
  | String c r =>
      if Ascii.eqb c "|" then EmptyString :: split_bar r
      else match split_bar r with
           | f :: fs => String c f :: fs
           | [] => [String c EmptyString]
           end
  end.

Definition parse_int (s : string) : Z :=
  match s with
  | String c r => if Ascii.eqb c "-" then - decimal_value r else decimal_value s
  | EmptyString => 0
  end.

Definition decode_frame (line : string) : list Z :=
  match line with
  | EmptyString => []
  | _ => parse_int <$> split_bar line
  end.

(** ** More vocabulary *)

(** Number of neighbours of a sequence of levels that differ. *)
Fixpoint changes (ls : list level) : nat :=
  match ls with
  | x :: ((y :: _) as rest) => ((if decide (x ≠ y) then 1 else 0) + changes rest)%nat
  | _ => O
  end.

(** The instants at which a line other than a switch event line was
    printed. *)
Definition frame_times (tr : list io_event) : list Z :=
  omap (fun e => match e with
                 | EvPrintln t l =>
                     if decide (l ≠ slot_line Switch2 ∧ l ≠ slot_line Switch3)
                     then Some t else None
                 | _ => None
                 end) tr.

(** What the log may hold once [setup()] has returned: reads of the
    pins [setup()] configured, each in its mode, and printed lines; no
    further configuration. *)
Definition after_setup (e : io_event) : Prop :=
  match e with
  | EvPinMode _ _ => False
  | EvSerialBegin _ => False
  | EvAnalogRead _ p _ => p ∈ analogInputs
  | EvDigitalRead _ p _ => p = switchPin2 ∨ p = switchPin3
  | EvPrintln _ _ => True
  end.

(** The pins and modes that [pinMode] was called with, oldest first. *)
Definition pin_modes (tr : list io_event) : list (pin * pin_mode) :=
  omap (fun e => match e with EvPinMode p m => Some (p, m) | _ => None end) tr.

(** The values of the [int] type of the target. *)
Definition in_int_range (v : Z) : Prop := -32768 <= v <= 32767.

(** The level of a switch that is held down until instant [a] and idle
    from then on. *)
Definition released_at (a : Z) (t : Z) : level :=
  if t <? a then LOW else HIGH.

(** The lines printed, each with the instant of its [println]. *)
Definition printed (tr : list io_event) : list (Z * string) :=
  omap (fun e => match e with EvPrintln t l => Some (t, l) | _ => None end) tr.

(** The text [printSliderValues] sends for the decimal fields [fs]:
    each field labelled with its position counted from 1, [" | "]
    between neighbours, one line feed at the end. *)
Definition debug_line (fs : list string) : string :=
  (String.concat " | "
     (imap (fun i f => "Slider #" ++ String_of_int (Z.of_nat i + 1) ++ ": " ++ f ++ " mV") fs)
   ++ String LF "")%string.

(** Potentiometers that wander with time, all inside the ADC range. *)
Definition env_wander : Env :=
  mkEnv (fun p t => match p with
                    | AnalogPin k => (t * k + 37 * k) mod 1024
                    | DigitalPin _ => 0
                    end)
        (fun p t => match p with
                    | DigitalPin 7 => held_down 300 600 t
                    | DigitalPin 6 => released_at 500 t
                    | _ => HIGH
                    end).

(** The level of a switch that is down until instant [a], up until [b],
    down again until [c] and up from then on. *)
Definition down_up_down_up (a b c : Z) (t : Z) : level :=
  if t <? a then LOW
  else if t <? b then HIGH
  else if t <? c then LOW else HIGH.

(** The switch on pin 7 goes up at 130 ms, down at 190 ms and up again
    at 250 ms: transitions 60 ms apart, more than the blanking interval.
    The switch on pin 6 stays down. *)
Definition env_flips_60 : Env :=
  mkEnv (fun _ _ => 0)
        (fun p t => match p with
                    | DigitalPin 7 => down_up_down_up 130 190 250 t
                    | _ => LOW
                    end).

(** The switch on pin 7 goes up at 130 ms, down at 330 ms and up again
    at 530 ms: transitions 200 ms apart.  The switch on pin 6 is idle
    until 200 ms and down from then on. *)
Definition env_flips_200 : Env :=
  mkEnv (fun _ _ => 0)
        (fun p t => match p with
                    | DigitalPin 7 => down_up_down_up 130 330 530 t
                    | _ => if t <? 200 then HIGH else LOW
                    end).

(** The switch on pin 7 goes up at 200 ms, down at 440 ms and up again
    at 680 ms: transitions 240 ms apart.  The switch on pin 6 is idle
    until 300 ms and down from then on. *)
Definition env_flips_240 : Env :=
  mkEnv (fun _ _ => 0)
        (fun p t => match p with
                    | DigitalPin 7 => down_up_down_up 200 440 680 t
                    | _ => if t <? 300 then HIGH else LOW
                    end).

(** ** Decimal conversion *)

Lemma digit_char_decimal u : decimal_char (digit_char (u mod 10)) = true.
Proof.
  assert (H : 0 <= u mod 10 < 10) by (apply Z.mod_pos_bound; lia).
  assert (Hc : u mod 10 = 0 \/ u mod 10 = 1 \/ u mod 10 = 2 \/ u mod 10 = 3 \/
               u mod 10 = 4 \/ u mod 10 = 5 \/ u mod 10 = 6 \/ u mod 10 = 7 \/
               u mod 10 = 8 \/ u mod 10 = 9) by lia.
  clear H. repeat (destruct Hc as [Hc | Hc]; [rewrite Hc; reflexivity |]).
  rewrite Hc. reflexivity.
Qed.

Lemma decimal_char_not_bar c : decimal_char c = true -> Ascii.eqb c "|" = false.
Proof.
  intros H. destruct (Ascii.eqb_spec c "|") as [-> | _]; [discriminate H | reflexivity].
Qed.

Lemma count_char_app c (a b : string) :
  count_char c (a ++ b) = (count_char c a + count_char c b)%nat.
Proof.
  induction a as [| d a IH]; [reflexivity |].
  change (count_char c (String d (a ++ b)) = (count_char c (String d a) + count_char c b)%nat).
  cbn [count_char]. rewrite IH. lia.
Qed.

Lemma utoa_acc_bars fuel : forall u acc,
  count_char "|" (utoa_acc fuel u acc) = count_char "|" acc.
Proof.
  induction fuel as [| fuel IH]; intros u acc; simpl.
  - rewrite (decimal_char_not_bar _ (digit_char_decimal u)). reflexivity.
  - destruct (u / 10 =? 0); [| rewrite IH]; simpl;
      rewrite (decimal_char_not_bar _ (digit_char_decimal u)); reflexivity.
Qed.

Lemma utoa_acc_head fuel : forall u acc,
  exists c, head_char (utoa_acc fuel u acc) = Some c /\ decimal_char c = true.
Proof.
  induction fuel as [| fuel IH]; intros u acc; simpl.
  - eexists; split; [reflexivity | apply digit_char_decimal].
  - destruct (u / 10 =? 0); [| apply IH].
    eexists; split; [reflexivity | apply digit_char_decimal].
Qed.

Lemma last_char_cons c (s : string) :
  last_char (String c s) = match last_char s with Some d => Some d | None => Some c end.
Proof.
  destruct s as [| d s]; [reflexivity |].
  change (last_char (String c (String d s))) with (last_char (String d s)).
  assert (H : exists e, last_char (String d s) = Some e).
  { clear c. revert d. induction s as [| e s IH]; intros d; [eexists; reflexivity |].
    change (last_char (String d (String e s))) with (last_char (String e s)). apply IH. }
  destruct H as (e & ->). reflexivity.
Qed.

Lemma last_char_none (s : string) : last_char s = None -> s = EmptyString.
Proof.
  induction s as [| c s IH]; [reflexivity |].
  rewrite last_char_cons. destruct (last_char s); discriminate.
Qed.

Lemma utoa_acc_last fuel : forall u acc,
  exists c, last_char (utoa_acc fuel u acc) = Some c /\
            (last_char acc = Some c \/ (acc = EmptyString /\ decimal_char c = true)).
Proof.
  induction fuel as [| fuel IH]; intros u acc.
  - simpl utoa_acc. rewrite last_char_cons.
    destruct (last_char acc) as [d |] eqn:E.
    + exists d. auto.
    + exists (digit_char (u mod 10)). split; [reflexivity | right].
      split; [apply last_char_none, E | apply digit_char_decimal].
  - simpl utoa_acc. destruct (u / 10 =? 0).
    + rewrite last_char_cons. destruct (last_char acc) as [d |] eqn:E.
      * exists d. auto.
      * exists (digit_char (u mod 10)). split; [reflexivity | right].
        split; [apply last_char_none, E | apply digit_char_decimal].
    + destruct (IH (u / 10) (String (digit_char (u mod 10)) acc)) as (c & Hc & Hor).
      exists c. split; [exact Hc |].
      destruct Hor as [Hl | [Habs _]]; [| discriminate Habs].
      rewrite last_char_cons in Hl. destruct (last_char acc) as [d |] eqn:E.
      * left. exact Hl.
      * right. split; [apply last_char_none, E |].
        injection Hl as <-. apply digit_char_decimal.
Qed.

Lemma String_of_int_bars x : count_char "|" (String_of_int x) = O.
Proof.
  unfold String_of_int, itoa, utoa. destruct (int16 x <? 0).
  - change (count_char "|" (utoa_acc 4 (- int16 x) EmptyString) = O).
    apply utoa_acc_bars.
  - apply utoa_acc_bars.
Qed.

Lemma String_of_int_head x :
  exists c, head_char (String_of_int x) = Some c /\ decimal_char c = true.
Proof.
  unfold String_of_int, itoa, utoa. destruct (int16 x <? 0).
  - exists "-"%char. split; reflexivity.
  - apply utoa_acc_head.
Qed.

Lemma String_of_int_last x :
  exists c, last_char (String_of_int x) = Some c /\ decimal_char c = true.
Proof.
  unfold String_of_int, itoa, utoa. destruct (int16 x <? 0).
  - destruct (utoa_acc_last 4 (- int16 x) EmptyString) as (c & Hc & Hor).
    exists c. rewrite last_char_cons, Hc. split; [reflexivity |].
    destruct Hor as [Hl | [_ Hd]]; [discriminate Hl | exact Hd].
  - destruct (utoa_acc_last 4 (int16 x) EmptyString) as (c & Hc & Hor).
    exists c. split; [exact Hc |].
    destruct Hor as [Hl | [_ Hd]]; [discriminate Hl | exact Hd].
Qed.

(** ** Strings *)

Lemma append_cons c (a b : string) : (String c a ++ b)%string = String c (a ++ b).
Proof. reflexivity. Qed.

Lemma append_nil_r (s : string) : (s ++ "")%string = s.
Proof. induction s as [| c s IH]; [reflexivity | rewrite append_cons, IH; reflexivity]. Qed.

Lemma append_assoc (a b c : string) : ((a ++ b) ++ c)%string = (a ++ (b ++ c))%string.
Proof. induction a as [| d a IH]; [reflexivity | rewrite !append_cons, IH; reflexivity]. Qed.

Lemma head_char_app (a b : string) c :
  head_char a = Some c -> head_char (a ++ b) = Some c.
Proof. destruct a; [discriminate | rewrite append_cons; auto]. Qed.

Lemma last_char_app (a b : string) c :
  last_char b = Some c -> last_char (a ++ b) = Some c.
Proof.
  intros H. induction a as [| d a IH]; [exact H |].
  rewrite append_cons, last_char_cons, IH. reflexivity.
Qed.

Lemma frame_of_cons2 v w (vs : list Z) :
  frame_of (v :: w :: vs) = (String_of_int v ++ "|" ++ frame_of (w :: vs))%string.
Proof. reflexivity. Qed.

(** ** Running monadic code *)

Lemma bind_some {A B} (m : M A) (f : A -> M B) s a s' :
  m s = Some (a, s') -> (m ≫= f) s = f a s'.
Proof. intros H. unfold mbind, M_bind. rewrite H. reflexivity. Qed.

(** ** The frame encoder *)

(** The string-building loop of [sendSliderValues], started at index
    [i] with [acc] built so far, leaves the board alone and appends the
    remaining readings, delimiter between neighbours. *)
Lemma build_loop n s : length (analogSliderValues s) = n ->
  forall k i acc, (i + k = n)%nat ->
  for_loop k i acc (fun i builtString =>
    v ← analogSliderValues_at i;
    let builtString := (builtString ++ String_of_int v)%string in
    mret (if Z.of_nat i <? Z.of_nat n - 1
          then (builtString ++ "|")%string
          else builtString)) s
  = Some ((acc ++ frame_of (drop i (analogSliderValues s)))%string, s).
Proof.
  intros Hlen. induction k as [| k IH]; intros i acc Hik.
  - simpl. rewrite drop_ge by lia. unfold frame_of. simpl.
    rewrite append_nil_r. reflexivity.
  - destruct (lookup_lt_is_Some_2 (analogSliderValues s) i) as [v Hv]; [lia |].
    cbn [for_loop]. erewrite bind_some; cycle 1.
    { unfold analogSliderValues_at. erewrite bind_some; [| rewrite Hv; reflexivity].
      reflexivity. }
    rewrite IH by lia. f_equal. f_equal.
    rewrite (drop_S _ _ _ Hv). unfold frame_of. rewrite fmap_cons.
    destruct (Z.ltb_spec (Z.of_nat i) (Z.of_nat n - 1)) as [Hlt | Hge].
    + destruct (lookup_lt_is_Some_2 (analogSliderValues s) (S i)) as [w Hw]; [lia |].
      rewrite (drop_S _ _ _ Hw), fmap_cons.
      change (String.concat "|" (String_of_int v :: String_of_int w ::
                                 (String_of_int <$> drop (S (S i)) (analogSliderValues s))))
        with (frame_of (v :: w :: drop (S (S i)) (analogSliderValues s))).
      rewrite frame_of_cons2, !append_assoc. reflexivity.
    + rewrite drop_ge by lia. simpl. rewrite append_nil_r. reflexivity.
Qed.

Lemma sendSliderValues_for_frame n s : length (analogSliderValues s) = n ->
  sendSliderValues_for n s =
  Some (tt, mkBoard (millis s) (analogSliderValues s) (prevSwitchState2 s)
                    (prevSwitchState3 s)
                    (trace s ++ [EvPrintln (millis s) (frame_of (analogSliderValues s))])).
Proof.
  intros Hlen. unfold sendSliderValues_for.
  erewrite bind_some; [| apply (build_loop n s Hlen); lia].
  rewrite drop_0. reflexivity.
Qed.

Lemma frame_of_bars (vs : list Z) :
  count_char "|" (frame_of vs) = (length vs - 1)%nat.
Proof.
  induction vs as [| v vs IH]; [reflexivity |].
  destruct vs as [| w vs].
  - apply String_of_int_bars.
  - rewrite frame_of_cons2, !count_char_app, IH, String_of_int_bars. simpl. lia.
Qed.

Lemma frame_of_head v (vs : list Z) :
  exists c, head_char (frame_of (v :: vs)) = Some c /\ decimal_char c = true.
Proof.
  destruct (String_of_int_head v) as (c & Hc & Hd). exists c. split; [| exact Hd].
  destruct vs; [exact Hc |]. rewrite frame_of_cons2. apply head_char_app, Hc.
Qed.

Lemma frame_of_last (vs : list Z) : vs ≠ [] ->
  exists c, last_char (frame_of vs) = Some c /\ decimal_char c = true.
Proof.
  induction vs as [| v vs IH]; [congruence | intros _].
  destruct vs as [| w vs].
  - apply String_of_int_last.
  - destruct IH as (c & Hc & Hd); [congruence |]. exists c. split; [| exact Hd].
    rewrite frame_of_cons2. apply last_char_app, last_char_app, Hc.
Qed.

(** ** One iteration of [loop] *)

Lemma wf_inv s : wf s ->
  exists a b c d e, analogSliderValues s = [a; b; c; d; e].
Proof.
  unfold wf, NUM_SLIDERS. destruct (analogSliderValues s) as [| a [| b [| c [| d [| e [| f l]]]]]];
    simpl; intros H; try discriminate H. eauto 6.
Qed.

Lemma updateSliderValues_step env s : wf s ->
  updateSliderValues env s =
  Some (tt, mkBoard (millis s) (sampled env (millis s)) (prevSwitchState2 s)
                    (prevSwitchState3 s)
                    (trace s ++ zip_with (EvAnalogRead (millis s)) analogInputs
                                         (sampled env (millis s)))).
Proof.
  intros Hwf. destruct (wf_inv s Hwf) as (a & b & c & d & e & Hv).
  destruct s as [t vs p2 p3 tr]. simpl in Hv. subst vs.
  cbv -[int16 app adc]. rewrite <- !app_assoc. reflexivity.
Qed.

Lemma sampled_length env t : length (sampled env t) = NUM_SLIDERS.
Proof. reflexivity. Qed.

Lemma digitalRead_run env p s :
  digitalRead env p s =
  Some (gpio env p (millis s),
        mkBoard (millis s) (analogSliderValues s) (prevSwitchState2 s) (prevSwitchState3 s)
                (trace s ++ [EvDigitalRead (millis s) p (gpio env p (millis s))])).
Proof. reflexivity. Qed.

Lemma Serial_println_run line s :
  Serial_println line s =
  Some (tt, mkBoard (millis s) (analogSliderValues s) (prevSwitchState2 s)
                    (prevSwitchState3 s) (trace s ++ [EvPrintln (millis s) line])).
Proof. reflexivity. Qed.

Lemma Board_eq t t' vs p2 p3 tr tr' :
  t = t' -> tr = tr' -> mkBoard t vs p2 p3 tr = mkBoard t' vs p2 p3 tr'.
Proof. congruence. Qed.

Ltac step :=
  erewrite bind_some;
  [| first [apply digitalRead_run | apply Serial_println_run | reflexivity]];
  cbn [millis analogSliderValues prevSwitchState2 prevSwitchState3 trace].

Lemma loop_step env s : wf s -> loop env s = Some (tt, loop_result env s).
Proof.
  intros Hwf. unfold loop.
  erewrite bind_some; [| apply updateSliderValues_step, Hwf].
  step.
  erewrite bind_some; [| apply sendSliderValues_for_frame, sampled_length].
  destruct s as [t vs p2 p3 tr]. unfold loop_result, cycle_trace.
  cbn [millis analogSliderValues prevSwitchState2 prevSwitchState3 trace].
  do 4 step.
  replace (t + 20 + 100) with (t + 120) by lia.
  unfold debounce_delay, edge_line.
  destruct (gpio env switchPin2 (t + 120)), (gpio env switchPin3 (t + 120)), p2, p3;
    repeat (case_decide; try congruence); repeat step;
    unfold delay; cbn [millis analogSliderValues prevSwitchState2 prevSwitchState3 trace];
    rewrite <- ?app_assoc, ?Z.add_0_r; cbn [app];
    (apply f_equal, f_equal, Board_eq; [lia | reflexivity]).
Qed.

(** ** Many iterations *)

Lemma loop_result_wf env s : wf (loop_result env s).
Proof. reflexivity. Qed.

Lemma run_wf env n s : wf s -> wf (run env n s).
Proof. destruct n; [auto | intros _; apply loop_result_wf]. Qed.

Lemma cycles_run env n s : wf s -> cycles env n s = Some (tt, run env n s).
Proof.
  intros Hwf. induction n as [| n IH]; [reflexivity |].
  cbn [cycles run]. erewrite bind_some; [| exact IH].
  apply loop_step, run_wf, Hwf.
Qed.

Lemma run_trace_spec env n s : trace (run env n s) = trace s ++ run_trace env n s.
Proof.
  induction n as [| n IH]; cbn [run run_trace]; [rewrite app_nil_r; reflexivity |].
  unfold loop_result at 1. cbn [trace]. rewrite IH, <- app_assoc. reflexivity.
Qed.

Lemma setup_run : setup power_on = Some (tt, booted).
Proof. reflexivity. Qed.

Lemma booted_wf : wf booted.
Proof. reflexivity. Qed.

Lemma firmware_run env n : firmware env n = Some (run env n booted).
Proof.
  unfold firmware. erewrite bind_some; [| apply setup_run].
  rewrite cycles_run by apply booted_wf. reflexivity.
Qed.

(** ** What one iteration logs *)

Lemma frame_not_line env t (l : string) c :
  head_char l = Some c -> decimal_char c = false -> frame_of (sampled env t) ≠ l.
Proof.
  intros Hl Hc E.
  destruct (frame_of_head (int16 (adc env A1 t))
              ((fun p => int16 (adc env p t)) <$> [A2; A3; A4; A5])) as (d & Hd & Hdec).
  change (head_char (frame_of (sampled env t)) = Some d) in Hd.
  rewrite E, Hl in Hd. congruence.
Qed.

Lemma frame_not_slot_line env t k : frame_of (sampled env t) ≠ slot_line k.
Proof. destruct k; eapply frame_not_line; reflexivity. Qed.

Ltac cycle_cases env t p2 p3 :=
  cbn [slot_pin slot_line];
  unfold cycle_trace, edge_line, debounce_delay;
  generalize (frame_not_slot_line env t Switch2), (frame_not_slot_line env t Switch3);
  generalize (frame_of (sampled env t));
  destruct (gpio env switchPin2 (t + 120)), (gpio env switchPin3 (t + 120)), p2, p3;
  intros fr Hfr2 Hfr3; cbn in Hfr2, Hfr3;
  repeat (case_decide; try congruence).

Lemma cycle_serial_lines env t p2 p3 :
  serial_lines (cycle_trace env t p2 p3) =
  frame_of (sampled env t) ::
  (if decide (gpio env switchPin2 (t + 120) ≠ p2 ∧ gpio env switchPin2 (t + 120) = HIGH)
   then ["WORKS 2"] else []) ++
  (if decide (gpio env switchPin3 (t + 120) ≠ p3 ∧ gpio env switchPin3 (t + 120) = HIGH)
   then ["WORKS 1"] else []).
Proof.
  cycle_cases env t p2 p3; try reflexivity; exfalso; intuition congruence.
Qed.

Lemma cycle_polled env t p2 p3 k :
  polled (slot_pin k) (cycle_trace env t p2 p3) = [gpio env (slot_pin k) (t + 120)].
Proof. destruct k; cycle_cases env t p2 p3; reflexivity. Qed.

Lemma cycle_poll_times env t p2 p3 k :
  poll_times (slot_pin k) (cycle_trace env t p2 p3) = [t + 120].
Proof. destruct k; cycle_cases env t p2 p3; reflexivity. Qed.

Lemma cycle_line_count env t p2 p3 k :
  line_count (slot_line k) (cycle_trace env t p2 p3) =
  rising_edges [pick k p2 p3; gpio env (slot_pin k) (t + 120)].
Proof.
  destruct k; cycle_cases env t p2 p3; cbn;
    repeat (case_decide; try congruence); reflexivity.
Qed.

Lemma cycle_line_times env t p2 p3 k :
  Forall (fun x => t + 120 <= x /\
                   x + 20 <= t + 140 + debounce_delay p2 (gpio env switchPin2 (t + 120))
                                     + debounce_delay p3 (gpio env switchPin3 (t + 120)))
         (line_times (slot_line k) (cycle_trace env t p2 p3)).
Proof.
  destruct k; cycle_cases env t p2 p3; cbn;
    repeat (case_decide; try congruence); repeat constructor; lia.
Qed.

Lemma cycle_other_lines env t p2 p3 (l : string) c :
  head_char l = Some c -> decimal_char c = false ->
  l ≠ slot_line Switch2 -> l ≠ slot_line Switch3 ->
  line_times l (cycle_trace env t p2 p3) = [].
Proof.
  intros Hl Hc H2 H3. pose proof (frame_not_line env t l c Hl Hc) as Hf.
  cbn [slot_line] in H2, H3. revert Hf. cycle_cases env t p2 p3; intros Hf; cbn;
    repeat (case_decide; try congruence); reflexivity.
Qed.

Lemma cycle_analog env t p2 p3 :
  analog_values (cycle_trace env t p2 p3) = sampled env t /\
  analog_pins (cycle_trace env t p2 p3) = analogInputs.
Proof. cycle_cases env t p2 p3; split; cbn -[int16]; reflexivity. Qed.

Lemma cycle_digital env t p2 p3 :
  digital_values (cycle_trace env t p2 p3) =
  [gpio env switchPin2 (t + 120); gpio env switchPin3 (t + 120)].
Proof. cycle_cases env t p2 p3; reflexivity. Qed.

(** ** Sequences of levels *)

Lemma rising_edges_cons2 a b ls :
  rising_edges (a :: b :: ls) = (rising_edges [a; b] + rising_edges (b :: ls))%nat.
Proof. destruct a, b; reflexivity. Qed.

Lemma last_cons_default {A} (ls : list A) : forall a p,
  List.last (a :: ls) p = List.last ls a.
Proof.
  induction ls as [| b ls IH]; intros a p; [reflexivity |].
  change (List.last (a :: b :: ls) p) with (List.last (b :: ls) p).
  rewrite (IH b p), (IH b a). reflexivity.
Qed.

Lemma rising_edges_snoc p ls x :
  rising_edges (p :: ls ++ [x]) =
  (rising_edges (p :: ls) + rising_edges [last_level p ls; x])%nat.
Proof.
  unfold last_level. revert p. induction ls as [| a ls IH]; intros p.
  - destruct p, x; reflexivity.
  - cbn [app].
    rewrite (rising_edges_cons2 p a (ls ++ [x])), (rising_edges_cons2 p a ls), IH.
    rewrite last_cons_default. lia.
Qed.

Lemma last_level_snoc p ls x : last_level p (ls ++ [x]) = x.
Proof. unfold last_level. apply last_last. Qed.

Lemma rising_edges_fires prev read :
  rising_edges [prev; read] = if decide (fires prev read) then 1%nat else 0%nat.
Proof. unfold fires. destruct prev, read; case_decide; intuition congruence. Qed.

(** ** What a run logs *)

Lemma run_S env n s : run env (S n) s = loop_result env (run env n s).
Proof. reflexivity. Qed.

Lemma polled_app p (a b : list io_event) : polled p (a ++ b) = polled p a ++ polled p b.
Proof. apply omap_app. Qed.

Lemma poll_times_app p (a b : list io_event) :
  poll_times p (a ++ b) = poll_times p a ++ poll_times p b.
Proof. apply omap_app. Qed.

Lemma line_times_app l (a b : list io_event) :
  line_times l (a ++ b) = line_times l a ++ line_times l b.
Proof. apply omap_app. Qed.

Lemma line_count_app l (a b : list io_event) :
  line_count l (a ++ b) = (line_count l a + line_count l b)%nat.
Proof. unfold line_count. rewrite line_times_app. apply length_app. Qed.

Lemma serial_lines_app (a b : list io_event) :
  serial_lines (a ++ b) = serial_lines a ++ serial_lines b.
Proof. apply omap_app. Qed.

Lemma analog_values_app (a b : list io_event) :
  analog_values (a ++ b) = analog_values a ++ analog_values b.
Proof. apply omap_app. Qed.

Lemma digital_values_app (a b : list io_event) :
  digital_values (a ++ b) = digital_values a ++ digital_values b.
Proof. apply omap_app. Qed.

Lemma run_polled env n s k :
  polled (slot_pin k) (run_trace env (S n) s) =
  polled (slot_pin k) (run_trace env n s) ++
  [gpio env (slot_pin k) (millis (run env n s) + 120)].
Proof. cbn [run_trace]. rewrite polled_app, cycle_polled. reflexivity. Qed.

Lemma run_slot_state env n s k :
  slot_state k (run env n s) =
  last_level (slot_state k s) (polled (slot_pin k) (run_trace env n s)).
Proof.
  destruct n as [| n]; [reflexivity |].
  rewrite run_polled, last_level_snoc. destruct k; reflexivity.
Qed.

Lemma run_line_count env n s k :
  line_count (slot_line k) (run_trace env n s) =
  rising_edges (slot_state k s :: polled (slot_pin k) (run_trace env n s)).
Proof.
  induction n as [| n IH]; [destruct (slot_state k s); reflexivity |].
  rewrite run_polled, rising_edges_snoc, <- IH, <- run_slot_state.
  cbn [run_trace]. rewrite line_count_app, cycle_line_count.
  destruct k; reflexivity.
Qed.

Lemma serial_bytes_app (a b : list io_event) :
  serial_bytes (a ++ b) = (serial_bytes a ++ serial_bytes b)%string.
Proof.
  unfold serial_bytes. rewrite serial_lines_app, fmap_app.
  generalize ((fun l => (l ++ println_terminator)%string) <$> serial_lines a) as xs.
  generalize ((fun l => (l ++ println_terminator)%string) <$> serial_lines b) as ys.
  intros ys xs. induction xs as [| x xs IH]; [reflexivity |].
  destruct xs as [| x' xs].
  - destruct ys; cbn; [rewrite append_nil_r |]; reflexivity.
  - change (String.concat "" ((x :: x' :: xs) ++ ys))
      with (x ++ String.concat "" ((x' :: xs) ++ ys))%string.
    rewrite IH. change (String.concat "" (x :: x' :: xs))
      with (x ++ String.concat "" (x' :: xs))%string.
    rewrite append_assoc. reflexivity.
Qed.

(** ** Iterations and their logs *)

Lemma loop_logs env s : wf s ->
  loop env s = Some (tt, loop_result env s) /\
  wf (loop_result env s) /\
  trace (loop_result env s) =
    trace s ++ cycle_trace env (millis s) (prevSwitchState2 s) (prevSwitchState3 s).
Proof. intros Hwf. split; [apply loop_step, Hwf | split; reflexivity]. Qed.

Lemma cycle_trace_shape env t p2 p3 :
  exists rest,
    cycle_trace env t p2 p3 =
      zip_with (EvAnalogRead t) analogInputs (sampled env t) ++
      EvPrintln (t + 20) (frame_of (sampled env t)) :: rest /\
    analog_values rest = [] /\
    Forall (fun l => l = "WORKS 2" \/ l = "WORKS 1") (serial_lines rest).
Proof.
  eexists. split; [reflexivity |]. unfold edge_line.
  destruct (gpio env switchPin2 (t + 120)), (gpio env switchPin3 (t + 120)), p2, p3;
    repeat case_decide; try congruence; cbn; auto.
Qed.

Lemma only_falling_no_rising ls : only_falling ls -> rising_edges ls = O.
Proof.
  induction ls as [| a ls IH]; [reflexivity |].
  destruct ls as [| b ls]; [destruct a; reflexivity |].
  intros [Hab Hrest]. rewrite rising_edges_cons2, (IH Hrest).
  destruct a, b; try reflexivity. destruct Hab; congruence.
Qed.

Lemma cycles_logs env n s : wf s ->
  cycles env n s = Some (tt, run env n s) /\
  wf (run env n s) /\
  trace (run env n s) = trace s ++ run_trace env n s.
Proof.
  intros Hwf. split; [apply cycles_run, Hwf | split; [apply run_wf, Hwf |]].
  apply run_trace_spec.
Qed.

Lemma loop_result_slot_state env s k :
  slot_state k (loop_result env s) = gpio env (slot_pin k) (millis s + 120).
Proof. destruct k; reflexivity. Qed.

(** ** Timing of polls and event lines *)

Lemma debounce_delay_range prev read :
  0 <= debounce_delay prev read <= 50.
Proof. unfold debounce_delay. case_decide; lia. Qed.

Lemma loop_result_millis env s :
  millis s + 140 <= millis (loop_result env s) <= millis s + 240.
Proof.
  unfold loop_result. cbn [millis].
  pose proof (debounce_delay_range (prevSwitchState2 s) (gpio env switchPin2 (millis s + 120))).
  pose proof (debounce_delay_range (prevSwitchState3 s) (gpio env switchPin3 (millis s + 120))).
  lia.
Qed.

Lemma run_millis env n s : millis s + 140 * Z.of_nat n <= millis (run env n s).
Proof.
  induction n as [| n IH]; [cbn; lia |].
  rewrite run_S. pose proof (loop_result_millis env (run env n s)). lia.
Qed.

Lemma run_line_times_bound env n s k :
  Forall (fun x => millis s + 120 <= x /\ x + 20 <= millis (run env n s))
         (line_times (slot_line k) (run_trace env n s)).
Proof.
  induction n as [| n IH]; [constructor |].
  cbn [run_trace]. rewrite line_times_app, run_S. apply Forall_app. split.
  - eapply Forall_impl; [exact IH |]. cbn beta. intros x [H1 H2].
    pose proof (loop_result_millis env (run env n s)). lia.
  - eapply Forall_impl; [apply cycle_line_times |]. cbn beta. intros x [H1 H2].
    pose proof (run_millis env n s). unfold loop_result. cbn [millis]. lia.
Qed.

Lemma run_poll_times_bound env n s k :
  Forall (fun x => millis s + 120 <= x /\ x + 20 <= millis (run env n s))
         (poll_times (slot_pin k) (run_trace env n s)).
Proof.
  induction n as [| n IH]; [constructor |].
  cbn [run_trace]. rewrite poll_times_app, run_S, cycle_poll_times.
  pose proof (loop_result_millis env (run env n s)) as Hm.
  apply Forall_app. split.
  - eapply Forall_impl; [exact IH |]. cbn beta. intros x [H1 H2]. lia.
  - repeat constructor; [| lia]. pose proof (run_millis env n s). lia.
Qed.

Lemma spaced_short d (ts : list Z) : (length ts <= 1)%nat -> spaced d ts.
Proof.
  destruct ts as [| a [| b ts]]; cbn; intros H; [exact I | | lia].
  split; [constructor | exact I].
Qed.

Lemma spaced_app d (a b : list Z) :
  spaced d a -> spaced d b ->
  Forall (fun x => Forall (fun y => x + d <= y) b) a ->
  spaced d (a ++ b).
Proof.
  induction a as [| x a IH]; intros Ha Hb Hab; [exact Hb |].
  destruct Ha as [Hx Ha]. apply Forall_cons in Hab as [Hxb Hab].
  cbn [app spaced]. split; [apply Forall_app; split; assumption | apply IH; assumption].
Qed.

Lemma run_line_times_spaced env n s k :
  spaced 140 (line_times (slot_line k) (run_trace env n s)).
Proof.
  induction n as [| n IH]; [exact I |].
  cbn [run_trace]. rewrite line_times_app. apply spaced_app; [exact IH | |].
  - apply spaced_short. fold (line_count (slot_line k)
      (cycle_trace env (millis (run env n s)) (prevSwitchState2 (run env n s))
                   (prevSwitchState3 (run env n s)))).
    rewrite cycle_line_count, rising_edges_fires. case_decide; lia.
  - eapply Forall_impl; [apply run_line_times_bound |]. cbn beta. intros x [_ Hx].
    eapply Forall_impl; [apply cycle_line_times |]. cbn beta. intros y [Hy _]. lia.
Qed.

Lemma run_poll_times_spaced env n s k :
  spaced 140 (poll_times (slot_pin k) (run_trace env n s)).
Proof.
  induction n as [| n IH]; [exact I |].
  cbn [run_trace]. rewrite poll_times_app, cycle_poll_times.
  apply spaced_app; [exact IH | apply spaced_short; cbn; lia |].
  eapply Forall_impl; [apply run_poll_times_bound |]. cbn beta. intros x [_ Hx].
  repeat constructor. lia.
Qed.

Lemma filter_none (P : Z -> Prop) `{!forall x, Decision (P x)} (ts : list Z) :
  Forall (fun x => ~ P x) ts -> filter P ts = [].
Proof.
  induction 1 as [| x ts Hx _ IH]; [reflexivity |].
  rewrite filter_cons_False by exact Hx. exact IH.
Qed.

(** In a list spaced by more than the window length, no window holds
    two elements. *)
Lemma spaced_window (d len : Z) (ts : list Z) (w : Z) :
  len < d -> spaced d ts ->
  (length (filter (fun x : Z => (w <= x <= w + len)%Z) ts) <= 1)%nat.
Proof.
  intros Hd. induction ts as [| a ts IH]; intros Hsp; [cbn; lia |].
  destruct Hsp as [Ha Hsp]. rewrite filter_cons. case_decide as Hin; [| apply IH, Hsp].
  rewrite filter_none; [cbn; lia |].
  eapply Forall_impl; [exact Ha |]. cbn beta. intros y Hy. lia.
Qed.

(** ** From power-on *)

Lemma run_shift env n s : run env (S n) s = run env n (loop_result env s).
Proof.
  induction n as [| n IH]; [reflexivity |].
  rewrite run_S, IH. reflexivity.
Qed.

Lemma run_trace_shift env n s :
  run_trace env (S n) s =
  cycle_trace env (millis s) (prevSwitchState2 s) (prevSwitchState3 s) ++
  run_trace env n (loop_result env s).
Proof.
  induction n as [| n IH]; [cbn [run_trace run]; rewrite app_nil_r; reflexivity |].
  change (run_trace env (S (S n)) s) with
    (run_trace env (S n) s ++
     cycle_trace env (millis (run env (S n) s)) (prevSwitchState2 (run env (S n) s))
                 (prevSwitchState3 (run env (S n) s))).
  rewrite IH, run_shift, <- app_assoc. reflexivity.
Qed.

Lemma firmware_log_run env n :
  firmware env n = Some (run env n booted) /\
  firmware_log env n = trace booted ++ run_trace env n booted.
Proof.
  unfold firmware_log. rewrite firmware_run. split; [reflexivity |].
  apply run_trace_spec.
Qed.

Lemma rising_edges_same x i rest :
  rising_edges (x :: replicate i x ++ rest) = rising_edges (x :: rest).
Proof.
  induction i as [| i IH]; [reflexivity |].
  cbn [replicate app]. rewrite rising_edges_cons2, IH. destruct x; reflexivity.
Qed.

Lemma rising_edges_block p x i rest : (0 < i)%nat ->
  rising_edges (p :: replicate i x ++ rest) =
  (rising_edges [p; x] + rising_edges (x :: rest))%nat.
Proof.
  destruct i as [| i]; [lia | intros _].
  cbn [replicate app]. rewrite rising_edges_cons2, rising_edges_same. reflexivity.
Qed.

Lemma frame_lines_app (a b : list io_event) :
  frame_lines (a ++ b) = frame_lines a ++ frame_lines b.
Proof. unfold frame_lines. rewrite serial_lines_app. apply filter_app. Qed.

Lemma cycle_frame_lines env t p2 p3 :
  frame_lines (cycle_trace env t p2 p3) = [frame_of (sampled env t)].
Proof.
  unfold frame_lines. rewrite cycle_serial_lines.
  pose proof (frame_not_slot_line env t Switch2) as N2.
  pose proof (frame_not_slot_line env t Switch3) as N3.
  rewrite filter_cons_True by (split; assumption). f_equal.
  repeat case_decide; reflexivity.
Qed.

Lemma run_frame_lines env n s : length (frame_lines (run_trace env n s)) = n.
Proof.
  induction n as [| n IH]; [reflexivity |].
  cbn [run_trace]. rewrite frame_lines_app, length_app, IH, cycle_frame_lines.
  cbn. lia.
Qed.

Lemma run_polled_length env n s k : length (polled (slot_pin k) (run_trace env n s)) = n.
Proof.
  induction n as [| n IH]; [reflexivity |].
  rewrite run_polled, length_app, IH. cbn. lia.
Qed.

Lemma first_poll env n s k x rest :
  polled (slot_pin k) (run_trace env n s) = x :: rest ->
  gpio env (slot_pin k) (millis s + 120) = x.
Proof.
  destruct n as [| n]; [discriminate |].
  rewrite run_trace_shift, polled_app, cycle_polled. cbn [app]. congruence.
Qed.

(** From power-on, a switch polled [HIGH], then [LOW], then [HIGH]
    again prints two event lines, while a switch polled [HIGH]
    throughout prints one; every iteration prints one frame line. *)
Lemma toggle_counts (env : Env) (n : nat) (k : slot) (i j m : nat) :
  (0 < i)%nat -> (0 < j)%nat -> (0 < m)%nat ->
  polled (slot_pin k) (firmware_log env n) =
    replicate i HIGH ++ replicate j LOW ++ replicate m HIGH ->
  polled (slot_pin (other k)) (firmware_log env n) = replicate n HIGH ->
  exists s',
    firmware env n = Some s' /\ trace s' = firmware_log env n /\
    line_count (slot_line k) (trace s') = 2%nat /\
    line_count (slot_line (other k)) (trace s') = 1%nat /\
    length (frame_lines (trace s')) = n /\
    n = (i + j + m)%nat /\
    serial_lines (firmware_log env 1) = [frame_of (sampled env 0); "WORKS 2"; "WORKS 1"].
Proof.
  intros Hi Hj Hm Hk Ho.
  destruct (firmware_log_run env n) as [Hrun Hlog].
  exists (run env n booted). split; [exact Hrun |].
  assert (Htr : trace (run env n booted) = firmware_log env n)
    by (rewrite Hlog; apply run_trace_spec).
  split; [exact Htr |]. rewrite Htr, Hlog. clear Htr.
  rewrite Hlog in Hk, Ho. rewrite polled_app in Hk, Ho.
  change (polled (slot_pin k) (trace booted)) with (@nil level) in Hk.
  change (polled (slot_pin (other k)) (trace booted)) with (@nil level) in Ho.
  cbn [app] in Hk, Ho.
  assert (Hn : n = (i + j + m)%nat).
  { rewrite <- (run_polled_length env n booted k), Hk, !length_app, !length_replicate. lia. }
  rewrite !line_count_app, frame_lines_app, length_app, !run_line_count, Hk, Ho,
    run_frame_lines.
  change (line_count (slot_line k) (trace booted)) with O.
  change (line_count (slot_line (other k)) (trace booted)) with O.
  change (length (frame_lines (trace booted))) with O.
  replace (slot_state k booted) with LOW by (destruct k; reflexivity).
  replace (slot_state (other k) booted) with LOW by (destruct k; reflexivity).
  split; [| split; [| split; [reflexivity | split; [exact Hn |]]]].
  - rewrite rising_edges_block by exact Hi. rewrite rising_edges_block by exact Hj.
    rewrite <- (app_nil_r (replicate m HIGH)). rewrite rising_edges_block by exact Hm.
    reflexivity.
  - rewrite <- (app_nil_r (replicate n HIGH)). rewrite rising_edges_block by lia.
    reflexivity.
  - destruct i as [| i']; [lia |]. destruct n as [| n']; [lia |].
    pose proof (first_poll env _ _ _ _ _ Hk) as Fk.
    pose proof (first_poll env _ _ _ _ _ Ho) as Fo.
    change (millis booted + 120) with 120 in Fk, Fo.
    destruct (firmware_log_run env 1) as [_ ->].
    change (run_trace env 1 booted) with (cycle_trace env 0 LOW LOW).
    rewrite serial_lines_app, cycle_serial_lines. change (0 + 120) with 120.
    destruct k; cbn [slot_pin other] in Fk, Fo; rewrite Fk, Fo; reflexivity.
Qed.

(** ** The output as a function of the values read *)

Lemma loop_result_ext env1 env2 s :
  sampled env1 (millis s) = sampled env2 (millis s) ->
  gpio env1 switchPin2 (millis s + 120) = gpio env2 switchPin2 (millis s + 120) ->
  gpio env1 switchPin3 (millis s + 120) = gpio env2 switchPin3 (millis s + 120) ->
  loop_result env1 s = loop_result env2 s.
Proof.
  intros Ha H2 H3. unfold loop_result, cycle_trace. rewrite Ha, H2, H3. reflexivity.
Qed.

Lemma run_analog_length env n s :
  length (analog_values (run_trace env n s)) = (5 * n)%nat.
Proof.
  induction n as [| n IH]; [reflexivity |].
  cbn [run_trace]. rewrite analog_values_app, length_app, IH.
  rewrite (proj1 (cycle_analog _ _ _ _)), sampled_length. unfold NUM_SLIDERS. lia.
Qed.

Lemma run_digital_length env n s :
  length (digital_values (run_trace env n s)) = (2 * n)%nat.
Proof.
  induction n as [| n IH]; [reflexivity |].
  cbn [run_trace]. rewrite digital_values_app, length_app, IH, cycle_digital.
  cbn [length]. lia.
Qed.

Lemma run_determined env1 env2 s : forall n,
  analog_values (run_trace env1 n s) = analog_values (run_trace env2 n s) ->
  digital_values (run_trace env1 n s) = digital_values (run_trace env2 n s) ->
  run env1 n s = run env2 n s.
Proof.
  induction n as [| n IH]; [reflexivity |]. cbn [run_trace].
  rewrite !analog_values_app, !digital_values_app, !cycle_digital.
  rewrite !(proj1 (cycle_analog _ _ _ _)).
  intros Ha Hd.
  apply app_inj_1 in Ha as [Ha Hs]; [| rewrite !run_analog_length; reflexivity].
  apply app_inj_1 in Hd as [Hd Hg]; [| rewrite !run_digital_length; reflexivity].
  specialize (IH Ha Hd). rewrite !run_S. rewrite <- IH in *.
  injection Hg as H2 H3. rewrite (loop_result_ext env1 env2); auto.
Qed.

(** ** From signals to polled levels *)

Lemma run_poll_times_shift env n s k :
  poll_times (slot_pin k) (run_trace env (S n) s) =
  (millis s + 120) :: poll_times (slot_pin k) (run_trace env n (loop_result env s)).
Proof. rewrite run_trace_shift, poll_times_app, cycle_poll_times. reflexivity. Qed.

Lemma run_polled_map env n s k :
  polled (slot_pin k) (run_trace env n s) =
  gpio env (slot_pin k) <$> poll_times (slot_pin k) (run_trace env n s).
Proof.
  induction n as [| n IH]; [reflexivity |].
  cbn [run_trace]. rewrite polled_app, poll_times_app, fmap_app, IH, cycle_polled,
    cycle_poll_times. reflexivity.
Qed.

Lemma run_poll_times_gaps env k : forall n s,
  gaps_le 240 (poll_times (slot_pin k) (run_trace env n s)).
Proof.
  induction n as [| n IH]; intros s; [exact I |].
  rewrite run_poll_times_shift. specialize (IH (loop_result env s)).
  destruct n as [| n]; [exact I |].
  rewrite run_poll_times_shift in IH |- *. split; [| exact IH].
  pose proof (loop_result_millis env s). lia.
Qed.

Lemma run_poll_times_last env n s k :
  List.last (poll_times (slot_pin k) (run_trace env (S n) s)) 0 =
  millis (run env n s) + 120.
Proof. cbn [run_trace]. rewrite poll_times_app, cycle_poll_times. apply last_last. Qed.

(** A switch that is held down from [a] to [b], sampled at increasing
    instants, reads [HIGH], then [LOW], then [HIGH]. *)
Lemma held_down_shape a b (ts : list Z) :
  a <= b -> spaced 140 ts ->
  held_down a b <$> ts =
  replicate (length (filter (fun t => t < a) ts)) HIGH ++
  replicate (length (filter (fun t => a <= t < b) ts)) LOW ++
  replicate (length (filter (fun t => b <= t) ts)) HIGH.
Proof.
  intros Hab. induction ts as [| x ts IH]; intros Hsp; [reflexivity |].
  destruct Hsp as [Hx Hsp]. rewrite fmap_cons, (IH Hsp). clear IH.
  unfold held_down at 1.
  destruct (Z.leb_spec a x) as [Hax | Hxa]; [destruct (Z.ltb_spec x b) as [Hxb | Hbx] |];
    cbn [andb].
  - rewrite (filter_cons_False (fun t => t < a)) by lia.
    rewrite (filter_cons_True (fun t => a <= t < b)) by lia.
    rewrite (filter_cons_False (fun t => b <= t)) by lia.
    rewrite (filter_none (fun t => t < a)); [reflexivity |].
    eapply Forall_impl; [exact Hx |]. cbn beta. intros y Hy. lia.
  - rewrite (filter_cons_False (fun t => t < a)) by lia.
    rewrite (filter_cons_False (fun t => a <= t < b)) by lia.
    rewrite (filter_cons_True (fun t => b <= t)) by lia.
    rewrite (filter_none (fun t => t < a)), (filter_none (fun t => a <= t < b));
      [reflexivity | |];
      (eapply Forall_impl; [exact Hx |]; cbn beta; intros y Hy; lia).
  - rewrite (filter_cons_True (fun t => t < a)) by lia.
    rewrite (filter_cons_False (fun t => a <= t < b)) by lia.
    rewrite (filter_cons_False (fun t => b <= t)) by lia.
    reflexivity.
Qed.

Lemma filter_some (P : Z -> Prop) `{!forall x, Decision (P x)} (ts : list Z) x :
  x ∈ ts -> P x -> (0 < length (filter P ts))%nat.
Proof.
  intros Hin HP. assert (Hf : x ∈ filter P ts) by (apply list_elem_of_filter; auto).
  destruct (filter P ts); [inversion Hf | cbn; lia].
Qed.

(** Between a sample before [a] and a sample from [b] on, samples at
    most [b - a] apart hit the interval from [a] to [b]. *)
Lemma gaps_le_crossing g a b : 0 <= g -> a + g <= b -> forall (ts : list Z) x,
  gaps_le g (x :: ts) -> x < a -> b <= List.last ts x ->
  exists y, y ∈ ts /\ a <= y < b.
Proof.
  intros Hg0 Hg. induction ts as [| y ts IH]; intros x Hgaps Hx Hlast; [cbn in Hlast; lia |].
  destruct Hgaps as [Hxy Hgaps].
  destruct (Z_lt_le_dec y a) as [Hya | Hay].
  - destruct (IH y Hgaps Hya) as (z & Hz & Hzab).
    + rewrite last_cons_default in Hlast. exact Hlast.
    + exists z. split; [right; exact Hz | exact Hzab].
  - exists y. split; [left | lia].
Qed.

Lemma held_down_polled env n s k a b :
  millis s + 120 < a -> a + 240 <= b -> b <= millis s + 140 * Z.of_nat n - 20 ->
  (forall t, gpio env (slot_pin k) t = held_down a b t) ->
  exists i j m,
    (0 < i)%nat /\ (0 < j)%nat /\ (0 < m)%nat /\
    polled (slot_pin k) (run_trace env n s) =
      replicate i HIGH ++ replicate j LOW ++ replicate m HIGH.
Proof.
  intros Ha Hab Hb Hsig.
  destruct n as [| n]; [lia |].
  set (ts := poll_times (slot_pin k) (run_trace env (S n) s)).
  assert (Hlast : List.last ts 0 = millis (run env n s) + 120)
    by apply run_poll_times_last.
  assert (Hgaps : gaps_le 240 ts) by apply run_poll_times_gaps.
  assert (Hsp : spaced 140 ts) by apply run_poll_times_spaced.
  assert (Hpolled : polled (slot_pin k) (run_trace env (S n) s) = held_down a b <$> ts).
  { rewrite run_polled_map. apply list_fmap_ext. intros _ t _. apply Hsig. }
  assert (Hts : ts = (millis s + 120) ::
                     poll_times (slot_pin k) (run_trace env n (loop_result env s)))
    by apply run_poll_times_shift.
  pose proof (run_millis env n s) as Hmono.
  rewrite Hpolled, held_down_shape by (lia || exact Hsp).
  eexists _, _, _. split; [| split; [| split; [| reflexivity]]].
  - apply (filter_some _ ts (millis s + 120)); [rewrite Hts; left | lia].
  - rewrite Hts in Hgaps, Hlast. rewrite last_cons_default in Hlast.
    destruct (gaps_le_crossing 240 a b ltac:(lia) ltac:(lia) _ _ Hgaps Ha) as (y & Hy & Hyab);
      [rewrite Hlast; lia |].
    apply (filter_some _ ts y); [rewrite Hts; right; exact Hy | exact Hyab].
  - apply (filter_some _ ts (millis (run env n s) + 120)); [| lia].
    unfold ts. cbn [run_trace]. rewrite poll_times_app, cycle_poll_times.
    apply elem_of_app. right. left.
Qed.

Lemma idle_polled env n s k :
  (forall t, gpio env (slot_pin k) t = HIGH) ->
  polled (slot_pin k) (run_trace env n s) = replicate n HIGH.
Proof.
  intros Hsig. rewrite <- (run_polled_length env n s k) at 2.
  rewrite run_polled_map, length_fmap. apply const_fmap. intros _ t _. apply Hsig.
Qed.

(** A press that outlasts the blanking interval but ends before the next
    poll goes unseen: only the two event lines of the first iteration
    are printed. *)
Lemma short_press_unseen :
  polled switchPin2 (firmware_log env_short_press 4) = [HIGH; HIGH; HIGH; HIGH] /\
  poll_times switchPin2 (firmware_log env_short_press 4) = [120; 360; 500; 640] /\
  serial_lines (firmware_log env_short_press 4) =
    ["0|0|0|0|0"; "WORKS 2"; "WORKS 1"; "0|0|0|0|0"; "0|0|0|0|0"; "0|0|0|0|0"].
Proof. vm_compute. repeat split; reflexivity. Qed.

(** ** The digits denote the value *)

Lemma digit_value_char u : 0 <= u < 10 -> digit_value (digit_char u) = u.
Proof.
  intros H.
  assert (Hc : u = 0 \/ u = 1 \/ u = 2 \/ u = 3 \/ u = 4 \/ u = 5 \/ u = 6 \/ u = 7 \/
               u = 8 \/ u = 9) by lia.
  clear H. repeat (destruct Hc as [-> | Hc]; [reflexivity |]). subst u. reflexivity.
Qed.

Lemma utoa_acc_value fuel : forall u acc,
  0 <= u < 10 ^ (Z.of_nat fuel + 1) ->
  decimal_value (utoa_acc fuel u acc) =
  u * 10 ^ Z.of_nat (String.length acc) + decimal_value acc.
Proof.
  induction fuel as [| fuel IH]; intros u acc Hu.
  - change (10 ^ (Z.of_nat 0 + 1)) with 10 in Hu.
    cbn [utoa_acc decimal_value]. rewrite Z.mod_small by lia.
    rewrite digit_value_char by lia. reflexivity.
  - cbn [utoa_acc]. destruct (Z.eqb_spec (u / 10) 0) as [Hq | Hq].
    + assert (Hu10 : 0 <= u < 10).
      { pose proof (Z.div_mod u 10 ltac:(lia)). pose proof (Z.mod_pos_bound u 10 ltac:(lia)). lia. }
      cbn [decimal_value]. rewrite Z.mod_small by lia.
      rewrite digit_value_char by lia. reflexivity.
    + rewrite IH.
      * cbn [decimal_value String.length].
        rewrite digit_value_char by (apply Z.mod_pos_bound; lia).
        rewrite Nat2Z.inj_succ, Z.pow_succ_r by lia.
        pose proof (Z.div_mod u 10 ltac:(lia)). nia.
      * replace (Z.of_nat (S fuel) + 1) with (Z.succ (Z.of_nat fuel + 1)) in Hu by lia.
        rewrite Z.pow_succ_r in Hu by lia.
        split; [apply Z.div_pos; lia | apply Z.div_lt_upper_bound; lia].
Qed.

Lemma String_of_int_value v : 0 <= v <= 32767 -> decimal_value (String_of_int v) = v.
Proof.
  intros Hv. unfold String_of_int, itoa, utoa.
  assert (Hw : int16 v = v) by (unfold int16; rewrite Z.mod_small; lia).
  rewrite Hw. destruct (Z.ltb_spec v 0) as [Hneg | _]; [lia |].
  rewrite utoa_acc_value by (change (10 ^ (Z.of_nat 4 + 1)) with 100000; lia).
  cbn [String.length decimal_value]. lia.
Qed.


(** ** A switch that goes up, down and up again *)

(** Sampled at increasing instants, such a switch reads [LOW], then
    [HIGH], then [LOW], then [HIGH]. *)
Lemma down_up_down_up_shape a b c (ts : list Z) :
  a <= b -> b <= c -> spaced 140 ts ->
  down_up_down_up a b c <$> ts =
  replicate (length (filter (fun t => t < a) ts)) LOW ++
  replicate (length (filter (fun t => a <= t < b) ts)) HIGH ++
  replicate (length (filter (fun t => b <= t < c) ts)) LOW ++
  replicate (length (filter (fun t => c <= t) ts)) HIGH.
Proof.
  intros Hab Hbc. induction ts as [| x ts IH]; intros Hsp; [reflexivity |].
  destruct Hsp as [Hx Hsp]. rewrite fmap_cons, (IH Hsp). clear IH.
  assert (Hlater : forall P : Z -> Prop, forall `{!forall t, Decision (P t)},
            (forall y, x + 140 <= y -> ~ P y) -> filter P ts = []).
  { intros P HP Hno. apply filter_none. eapply Forall_impl; [exact Hx |]. exact Hno. }
  unfold down_up_down_up at 1.
  destruct (Z.ltb_spec x a) as [Hxa | Hax];
    [| destruct (Z.ltb_spec x b) as [Hxb | Hbx];
       [| destruct (Z.ltb_spec x c) as [Hxc | Hcx]]].
  - rewrite (filter_cons_True (fun t => t < a)) by lia.
    rewrite (filter_cons_False (fun t => a <= t < b)) by lia.
    rewrite (filter_cons_False (fun t => b <= t < c)) by lia.
    rewrite (filter_cons_False (fun t => c <= t)) by lia.
    reflexivity.
  - rewrite (filter_cons_False (fun t => t < a)) by lia.
    rewrite (filter_cons_True (fun t => a <= t < b)) by lia.
    rewrite (filter_cons_False (fun t => b <= t < c)) by lia.
    rewrite (filter_cons_False (fun t => c <= t)) by lia.
    rewrite (Hlater (fun t => t < a)) by (intros; lia). reflexivity.
  - rewrite (filter_cons_False (fun t => t < a)) by lia.
    rewrite (filter_cons_False (fun t => a <= t < b)) by lia.
    rewrite (filter_cons_True (fun t => b <= t < c)) by lia.
    rewrite (filter_cons_False (fun t => c <= t)) by lia.
    rewrite (Hlater (fun t => t < a)), (Hlater (fun t => a <= t < b)) by (intros; lia).
    reflexivity.
  - rewrite (filter_cons_False (fun t => t < a)) by lia.
    rewrite (filter_cons_False (fun t => a <= t < b)) by lia.
    rewrite (filter_cons_False (fun t => b <= t < c)) by lia.
    rewrite (filter_cons_True (fun t => c <= t)) by lia.
    rewrite (Hlater (fun t => t < a)), (Hlater (fun t => a <= t < b)),
      (Hlater (fun t => b <= t < c)) by (intros; lia).
    reflexivity.
Qed.

(** With each level held for a full loop period, every level is polled. *)
Lemma down_up_down_up_polled env n s k a b c :
  millis s + 120 < a -> a + 240 <= b -> b + 240 <= c ->
  c <= millis s + 140 * Z.of_nat n - 20 ->
  (forall t, gpio env (slot_pin k) t = down_up_down_up a b c t) ->
  exists i j m q,
    (0 < i)%nat /\ (0 < j)%nat /\ (0 < m)%nat /\ (0 < q)%nat /\
    polled (slot_pin k) (run_trace env n s) =
      replicate i LOW ++ replicate j HIGH ++ replicate m LOW ++ replicate q HIGH.
Proof.
  intros Ha Hab Hbc Hc Hsig.
  destruct n as [| n]; [lia |].
  set (ts := poll_times (slot_pin k) (run_trace env (S n) s)).
  assert (Hlast : List.last ts 0 = millis (run env n s) + 120)
    by apply run_poll_times_last.
  assert (Hgaps : gaps_le 240 ts) by apply run_poll_times_gaps.
  assert (Hsp : spaced 140 ts) by apply run_poll_times_spaced.
  assert (Hpolled : polled (slot_pin k) (run_trace env (S n) s) = down_up_down_up a b c <$> ts).
  { rewrite run_polled_map. apply list_fmap_ext. intros _ t _. apply Hsig. }
  assert (Hts : ts = (millis s + 120) ::
                     poll_times (slot_pin k) (run_trace env n (loop_result env s)))
    by apply run_poll_times_shift.
  pose proof (run_millis env n s) as Hmono.
  rewrite Hpolled, down_up_down_up_shape by (lia || exact Hsp).
  rewrite Hts in Hgaps, Hlast. rewrite last_cons_default in Hlast.
  eexists _, _, _, _. split; [| split; [| split; [| split; [| reflexivity]]]].
  - apply (filter_some _ ts (millis s + 120)); [rewrite Hts; left | lia].
  - destruct (gaps_le_crossing 240 a b ltac:(lia) ltac:(lia) _ _ Hgaps Ha) as (y & Hy & Hyab);
      [rewrite Hlast; lia |].
    apply (filter_some _ ts y); [rewrite Hts; right; exact Hy | exact Hyab].
  - destruct (gaps_le_crossing 240 b c ltac:(lia) ltac:(lia) _ _ Hgaps ltac:(lia))
      as (y & Hy & Hybc); [rewrite Hlast; lia |].
    apply (filter_some _ ts y); [rewrite Hts; right; exact Hy | exact Hybc].
  - apply (filter_some _ ts (millis (run env n s) + 120)); [| lia].
    unfold ts. cbn [run_trace]. rewrite poll_times_app, cycle_poll_times.
    apply elem_of_app. right. left.
Qed.

Lemma rising_edges_down_up_down_up p i j m q :
  (0 < i)%nat -> (0 < j)%nat -> (0 < m)%nat -> (0 < q)%nat ->
  rising_edges (p :: replicate i LOW ++ replicate j HIGH ++
                     replicate m LOW ++ replicate q HIGH) = 2%nat.
Proof.
  intros Hi Hj Hm Hq.
  rewrite rising_edges_block by exact Hi. rewrite rising_edges_block by exact Hj.
  rewrite rising_edges_block by exact Hm.
  rewrite <- (app_nil_r (replicate q HIGH)). rewrite rising_edges_block by exact Hq.
  destruct p; reflexivity.
Qed.

Lemma run_poll_times_head env n s k :
  head (poll_times (slot_pin k) (run_trace env n s)) =
  (if n is O then None else Some (millis s + 120)).
Proof. destruct n as [| n]; [reflexivity |]. rewrite run_poll_times_shift. reflexivity. Qed.

(** * The claims *)

(** C1 (as the code has it).  From power-on, let one switch be idle
    ([HIGH]) except while it is held down from instant [a], later than
    the first poll, to instant [b], at least 240 ms later (the longest
    loop period, so that a poll sees the [LOW] level), and let the other
    switch be idle throughout.  Once the firmware has run long enough to
    poll the release, it has printed exactly two event lines for the
    first switch and exactly one for the other: the stored states start
    [LOW], so the first iteration prints both switches' event lines, and
    the release prints one more.  Each of the [n] iterations prints
    exactly one frame line. *)
Theorem C1_toggle_after_power_on (env : Env) (n : nat) (k : slot) (a b : Z) :
  120 < a -> a + 240 <= b -> b <= 140 * Z.of_nat n - 20 ->
  (forall t, gpio env (slot_pin k) t = held_down a b t) ->
  (forall t, gpio env (slot_pin (other k)) t = HIGH) ->
  exists s',
    firmware env n = Some s' /\
    line_count (slot_line k) (trace s') = 2%nat /\
    line_count (slot_line (other k)) (trace s') = 1%nat /\
    length (frame_lines (trace s')) = n /\
    serial_lines (firmware_log env 1) = [frame_of (sampled env 0); "WORKS 2"; "WORKS 1"].
Proof.
  intros Ha Hab Hb Hk Ho.
  destruct (held_down_polled env n booted k a b) as (i & j & m & Hi & Hj & Hm & Hp);
    [exact Ha | exact Hab | cbn [millis booted]; lia | exact Hk |].
  pose proof (idle_polled env n booted (other k) Ho) as Hq.
  destruct (firmware_log_run env n) as [_ Hlog].
  destruct (toggle_counts env n k i j m Hi Hj Hm) as (s' & Hrun & _ & H2 & H1 & Hf & _ & H0).
  - rewrite Hlog, polled_app. exact Hp.
  - rewrite Hlog, polled_app. exact Hq.
  - exists s'. auto.
Qed.

Lemma C1_toggle_after_power_on_witness :
  exists s',
    firmware env_toggle 5 = Some s' /\
    line_count "WORKS 2" (trace s') = 2%nat /\
    line_count "WORKS 1" (trace s') = 1%nat /\
    length (frame_lines (trace s')) = 5%nat /\
    serial_lines (firmware_log env_toggle 1) =
      [frame_of (sampled env_toggle 0); "WORKS 2"; "WORKS 1"].
Proof.
  apply (C1_toggle_after_power_on env_toggle 5 Switch2 300 600); try lia;
    intros t; reflexivity.
Defined.

(** C1 fails as stated: with both switches [HIGH] from power-on and the
    switch on pin 7 held [LOW] from 300 ms to 600 ms (far longer than the
    50 ms blanking interval), four iterations poll that switch [HIGH],
    [LOW], [LOW], [HIGH] and the other [HIGH] four times, yet the
    firmware prints two event lines for the toggled switch (not one) and
    one for the untouched switch (not none). *)
Lemma C1_counterexample :
  polled switchPin2 (firmware_log env_toggle 4) = [HIGH; LOW; LOW; HIGH] /\
  polled switchPin3 (firmware_log env_toggle 4) = [HIGH; HIGH; HIGH; HIGH] /\
  line_times "WORKS 2" (firmware_log env_toggle 4) = [120; 690] /\
  line_times "WORKS 1" (firmware_log env_toggle 4) = [170] /\
  line_count "WORKS 2" (firmware_log env_toggle 4) = 2%nat /\
  line_count "WORKS 1" (firmware_log env_toggle 4) = 1%nat.
Proof. vm_compute. repeat split; reflexivity. Qed.

(** C2. One poll: an iteration of [loop] reads each switch once, prints
    the switch's event line exactly when the level read differs from the
    stored one and is [HIGH] (and prints it once), stores the level
    read, and spends 50 ms more when the level read differs from the
    stored one.  Many polls: over any number of iterations, a switch whose
    levels, starting from the stored one, only ever change from [HIGH]
    to [LOW] prints no event line at all. *)
Theorem C2_event_iff_rising (env : Env) (s : Board) :
  wf s ->
  (exists s' tr,
     loop env s = Some (tt, s') /\ trace s' = trace s ++ tr /\
     forall k,
       let read := gpio env (slot_pin k) (millis s + 120) in
       polled (slot_pin k) tr = [read] /\
       (In (slot_line k) (serial_lines tr) <-> read ≠ slot_state k s /\ read = HIGH) /\
       line_count (slot_line k) tr =
         (if decide (read ≠ slot_state k s /\ read = HIGH) then 1 else 0)%nat /\
       slot_state k s' = read /\
       millis s + 140 + (if decide (read ≠ slot_state k s) then 50 else 0)
         <= millis s' <= millis s + 190 + (if decide (read ≠ slot_state k s) then 50 else 0)) /\
  (forall n, exists s' tr,
     cycles env n s = Some (tt, s') /\ trace s' = trace s ++ tr /\
     forall k,
       only_falling (slot_state k s :: polled (slot_pin k) tr) ->
       line_count (slot_line k) tr = O).
Proof.
  intros Hwf. split.
  - destruct (loop_logs env s Hwf) as (Hrun & _ & Htr).
    eexists _, _. split; [exact Hrun | split; [exact Htr |]].
    intros k read. split; [apply cycle_polled |].
    assert (Hcount : line_count (slot_line k)
              (cycle_trace env (millis s) (prevSwitchState2 s) (prevSwitchState3 s)) =
            (if decide (read ≠ slot_state k s /\ read = HIGH) then 1 else 0)%nat).
    { rewrite cycle_line_count, rising_edges_fires. unfold fires.
      destruct k; reflexivity. }
    split; [| split; [exact Hcount | split; [apply loop_result_slot_state |]]].
    2:{ unfold loop_result. cbn [millis]. subst read.
        pose proof (debounce_delay_range (prevSwitchState2 s)
                      (gpio env switchPin2 (millis s + 120))) as R2.
        pose proof (debounce_delay_range (prevSwitchState3 s)
                      (gpio env switchPin3 (millis s + 120))) as R3.
        destruct k; cbn [slot_pin slot_state]; unfold debounce_delay in *;
          repeat case_decide; lia. }
    rewrite cycle_serial_lines.
    pose proof (frame_not_slot_line env (millis s) k) as Hfr.
    subst read. destruct k; cbn [slot_pin slot_line slot_state pick] in *;
      repeat case_decide; cbn; intuition congruence.
  - intros n. destruct (cycles_logs env n s Hwf) as (Hrun & _ & Htr).
    eexists _, _. split; [exact Hrun | split; [exact Htr |]].
    intros k Hfall. rewrite run_line_count. apply only_falling_no_rising, Hfall.
Qed.

Lemma C2_event_iff_rising_witness :
  wf latched_high /\
  exists s' tr,
    cycles env_pressed 3 latched_high = Some (tt, s') /\
    polled switchPin2 tr = [LOW; LOW; LOW] /\
    line_count "WORKS 2" tr = O.
Proof.
  split; [reflexivity |].
  destruct (C2_event_iff_rising env_pressed latched_high eq_refl) as [_ Hn].
  destruct (Hn 3%nat) as (s' & tr & Hrun & Htr & Hk).
  exists s', tr. split; [exact Hrun |].
  vm_compute in Hrun. injection Hrun as <-. cbn [trace latched_high app] in Htr. subst tr.
  split; [reflexivity |]. apply (Hk Switch2). vm_compute. intuition congruence.
Defined.

(** C3 (as the code has it).  Over any number of iterations, from any
    stored state and for any signal on the pins, each iteration presents
    a switch's debouncer with one level, the one its pin carries at the
    instant of the poll: the first poll comes 120 ms into the first
    iteration, and polls are at least 140 ms and at most 240 ms apart.
    The number of event lines the switch prints is the number of [LOW]
    to [HIGH] steps in the sequence formed by the stored level followed
    by the levels polled: one Event per rising edge, none otherwise.
    Flips between two polls are never seen, and no window of 50 ms (one
    blanking interval) holds two event lines of one switch.  A switch
    that is down, up, down and up again, with its first transition after
    the first poll and its transitions at least 240 ms apart (the
    longest loop period: more than the blanking interval is not enough),
    prints exactly two event lines once the last level has been
    polled. *)
Theorem C3_one_event_per_rising_edge (env : Env) (n : nat) (s : Board) :
  wf s ->
  exists s' tr,
    cycles env n s = Some (tt, s') /\ trace s' = trace s ++ tr /\
    forall k,
      length (polled (slot_pin k) tr) = n /\
      polled (slot_pin k) tr = gpio env (slot_pin k) <$> poll_times (slot_pin k) tr /\
      head (poll_times (slot_pin k) tr) = (if n is O then None else Some (millis s + 120)) /\
      spaced 140 (poll_times (slot_pin k) tr) /\
      gaps_le 240 (poll_times (slot_pin k) tr) /\
      line_count (slot_line k) tr =
        rising_edges (slot_state k s :: polled (slot_pin k) tr) /\
      (forall w : Z,
         (length (filter (fun x : Z => (w <= x <= w + 50)%Z)
                         (line_times (slot_line k) tr)) <= 1)%nat) /\
      (forall a b c : Z,
         millis s + 120 < a -> a + 240 <= b -> b + 240 <= c ->
         c <= millis s + 140 * Z.of_nat n - 20 ->
         (forall t, gpio env (slot_pin k) t = down_up_down_up a b c t) ->
         line_count (slot_line k) tr = 2%nat).
Proof.
  intros Hwf. destruct (cycles_logs env n s Hwf) as (Hrun & _ & Htr).
  eexists _, _. split; [exact Hrun | split; [exact Htr |]].
  intros k. split; [apply run_polled_length |].
  split; [apply run_polled_map |].
  split; [apply run_poll_times_head |].
  split; [apply run_poll_times_spaced |].
  split; [apply run_poll_times_gaps |].
  split; [apply run_line_count |].
  split.
  - intros w. apply (spaced_window 140); [lia | apply run_line_times_spaced].
  - intros a b c Ha Hab Hbc Hc Hsig.
    destruct (down_up_down_up_polled env n s k a b c Ha Hab Hbc Hc Hsig)
      as (i & j & m & q & Hi & Hj & Hm & Hq & Hp).
    rewrite run_line_count, Hp. apply rising_edges_down_up_down_up; assumption.
Qed.

Lemma C3_one_event_per_rising_edge_witness :
  wf power_on /\
  exists s' tr,
    cycles env_flips_240 5 power_on = Some (tt, s') /\
    trace s' = trace power_on ++ tr /\
    poll_times switchPin2 tr = [120; 310; 550; 740; 930] /\
    polled switchPin2 tr = [LOW; HIGH; LOW; HIGH; HIGH] /\
    line_count "WORKS 2" tr = 2%nat /\
    line_count "WORKS 1" tr = rising_edges (LOW :: polled switchPin3 tr).
Proof.
  split; [reflexivity |].
  destruct (C3_one_event_per_rising_edge env_flips_240 5 power_on eq_refl)
    as (s' & tr & Hrun & Htr & Hk).
  exists s', tr. split; [exact Hrun | split; [exact Htr |]].
  pose proof (Hk Switch2) as (_ & _ & _ & _ & _ & _ & _ & H2).
  pose proof (Hk Switch3) as (_ & _ & _ & _ & _ & H3 & _).
  assert (Hcount : line_count "WORKS 2" tr = 2%nat).
  { apply (H2 200 440 680); try (cbn; lia). intros t. reflexivity. }
  split; [| split; [| split; [exact Hcount | exact H3]]];
    vm_compute in Hrun; injection Hrun as <-; cbn [trace power_on app] in Htr;
    subst tr; reflexivity.
Defined.

(** C3 fails as stated on its last clause.  A switch that is down, up,
    down and up again with transitions 60 ms apart, or 200 ms apart,
    both more than the 50 ms blanking interval, prints one event line,
    not two: the firmware polls it [LOW] once and [HIGH] ever after,
    the second [LOW] level falling between two polls. *)
Lemma C3_counterexample :
  gpio env_flips_60 switchPin2 = down_up_down_up 130 190 250 /\
  poll_times switchPin2 (firmware_log env_flips_60 5) = [120; 260; 450; 590; 730] /\
  polled switchPin2 (firmware_log env_flips_60 5) = [LOW; HIGH; HIGH; HIGH; HIGH] /\
  line_times "WORKS 2" (firmware_log env_flips_60 5) = [260] /\
  line_count "WORKS 2" (firmware_log env_flips_60 5) = 1%nat /\
  gpio env_flips_200 switchPin2 = down_up_down_up 130 330 530 /\
  poll_times switchPin2 (firmware_log env_flips_200 5) = [120; 310; 550; 690; 830] /\
  polled switchPin2 (firmware_log env_flips_200 5) = [LOW; HIGH; HIGH; HIGH; HIGH] /\
  line_times "WORKS 2" (firmware_log env_flips_200 5) = [310] /\
  line_count "WORKS 2" (firmware_log env_flips_200 5) = 1%nat.
Proof. repeat split; vm_compute; reflexivity. Qed.

(** C4. For every array of channel values, [sendSliderValues] built for
    that many sliders prints one line and changes nothing else; the line
    is the decimal forms joined by the delimiter, so it holds exactly
    [N - 1] delimiter characters; for [N >= 1] it neither starts nor ends
    with a delimiter; for [N = 0] it is the empty line. *)
Theorem C4_delimiter_count (vs : list Z) (t : Z) (p2 p3 : level) (tr : list io_event) :
  exists line,
    sendSliderValues_for (length vs) (mkBoard t vs p2 p3 tr) =
      Some (tt, mkBoard t vs p2 p3 (tr ++ [EvPrintln t line])) /\
    line = frame_of vs /\
    count_char "|" line = (length vs - 1)%nat /\
    (vs ≠ [] ->
       (exists c, head_char line = Some c /\ c ≠ "|"%char) /\
       (exists c, last_char line = Some c /\ c ≠ "|"%char)) /\
    (vs = [] -> line = "").
Proof.
  exists (frame_of vs). split; [| split; [reflexivity | split; [apply frame_of_bars | split]]].
  - apply (sendSliderValues_for_frame (length vs) (mkBoard t vs p2 p3 tr)). reflexivity.
  - intros Hne. split.
    + destruct vs as [| v vs]; [congruence |].
      destruct (frame_of_head v vs) as (c & Hc & Hd). exists c. split; [exact Hc |].
      intros ->. discriminate Hd.
    + destruct (frame_of_last vs Hne) as (c & Hc & Hd). exists c. split; [exact Hc |].
      intros ->. discriminate Hd.
  - intros ->. reflexivity.
Qed.

(** C5. On the readings 512, 0, 1023, 256, 999 the encoder prints the
    line [512|0|1023|256|999], which goes out on the wire followed by the
    line terminator; 0 is printed as [0] and 1023 as [1023]; and every
    magnitude of the ADC range is printed as digits that denote it, with
    no delimiter among them. *)
Theorem C5_sample_frame (t : Z) (p2 p3 : level) (tr : list io_event) :
  sendSliderValues (mkBoard t [512; 0; 1023; 256; 999] p2 p3 tr) =
    Some (tt, mkBoard t [512; 0; 1023; 256; 999] p2 p3
                      (tr ++ [EvPrintln t "512|0|1023|256|999"])) /\
  serial_bytes [EvPrintln t "512|0|1023|256|999"] =
    ("512|0|1023|256|999" ++ String "010"%char "")%string /\
  String_of_int 0 = "0" /\
  String_of_int 1023 = "1023" /\
  (forall v, 0 <= v <= 1023 ->
     decimal_value (String_of_int v) = v /\ count_char "|" (String_of_int v) = O).
Proof.
  split; [reflexivity | split; [reflexivity | split; [reflexivity | split; [reflexivity |]]]].
  intros v Hv. split; [apply String_of_int_value; lia | apply String_of_int_bars].
Qed.

(** C6. A rising edge on switch slot 2 (pin 7) prints the literal line
    [WORKS 2]; a rising edge on switch slot 3 (pin 6) prints the literal
    line [WORKS 1]; the two lines differ, and no line numbered 3 is ever
    printed. *)
Theorem C6_event_lines (env : Env) (s : Board) :
  wf s ->
  exists s' tr,
    loop env s = Some (tt, s') /\ trace s' = trace s ++ tr /\
    line_count "WORKS 2" tr =
      rising_edges [prevSwitchState2 s; gpio env (DigitalPin 7) (millis s + 120)] /\
    line_count "WORKS 1" tr =
      rising_edges [prevSwitchState3 s; gpio env (DigitalPin 6) (millis s + 120)] /\
    line_count "WORKS 3" tr = O /\
    slot_line Switch2 = "WORKS 2" /\ slot_line Switch3 = "WORKS 1" /\
    slot_line Switch2 ≠ slot_line Switch3.
Proof.
  intros Hwf. destruct (loop_logs env s Hwf) as (Hrun & _ & Htr).
  eexists _, _. split; [exact Hrun | split; [exact Htr |]].
  split; [apply (cycle_line_count _ _ _ _ Switch2) |].
  split; [apply (cycle_line_count _ _ _ _ Switch3) |].
  split; [| split; [reflexivity | split; [reflexivity | discriminate]]].
  unfold line_count. erewrite cycle_other_lines; [reflexivity | reflexivity | reflexivity | |];
    discriminate.
Qed.

Lemma C6_event_lines_witness :
  wf power_on /\
  exists s' tr,
    loop env_idle power_on = Some (tt, s') /\
    line_count "WORKS 2" tr = 1%nat /\ line_count "WORKS 1" tr = 1%nat /\
    line_count "WORKS 3" tr = O.
Proof.
  split; [reflexivity |].
  destruct (C6_event_lines env_idle power_on eq_refl)
    as (s' & tr & Hrun & _ & H2 & H3 & H0 & _).
  exists s', tr. split; [exact Hrun | split; [exact H2 | split; [exact H3 | exact H0]]].
Defined.

(** C7. Every iteration of [loop], whatever the board holds and whatever
    the pins carry, first reads the five analog inputs [A1] .. [A5] in
    index order, stores the readings, and then prints exactly one frame
    line, made of those five readings in that order (four delimiters);
    whatever else the iteration prints is a switch event line.  So [n]
    iterations print [n] frame lines. *)
Theorem C7_one_frame_per_cycle (env : Env) (s : Board) :
  wf s ->
  exists s' vs rest,
    loop env s = Some (tt, s') /\ wf s' /\
    vs = (fun p => int16 (adc env p (millis s))) <$> [A1; A2; A3; A4; A5] /\
    trace s' =
      trace s ++ zip_with (EvAnalogRead (millis s)) [A1; A2; A3; A4; A5] vs ++
      EvPrintln (millis s + 20) (frame_of vs) :: rest /\
    analogSliderValues s' = vs /\
    length vs = 5%nat /\
    count_char "|" (frame_of vs) = 4%nat /\
    analog_values rest = [] /\
    Forall (fun l => l = "WORKS 2" \/ l = "WORKS 1") (serial_lines rest) /\
    frame_lines (drop (length (trace s)) (trace s')) = [frame_of vs] /\
    forall n, exists sn,
      cycles env n s = Some (tt, sn) /\
      length (frame_lines (drop (length (trace s)) (trace sn))) = n.
Proof.
  intros Hwf. destruct (loop_logs env s Hwf) as (Hrun & Hwf' & Htr).
  destruct (cycle_trace_shape env (millis s) (prevSwitchState2 s) (prevSwitchState3 s))
    as (rest & Hshape & Hana & Hev).
  exists (loop_result env s), (sampled env (millis s)), rest.
  split; [exact Hrun | split; [exact Hwf' | split; [reflexivity |]]].
  split; [rewrite Htr, Hshape; reflexivity |].
  split; [reflexivity | split; [reflexivity | split; [apply frame_of_bars |]]].
  split; [exact Hana | split; [exact Hev | split]].
  - rewrite Htr, drop_app_length. apply cycle_frame_lines.
  - intros n. destruct (cycles_logs env n s Hwf) as (Hn & _ & Htn).
    eexists. split; [exact Hn |].
    rewrite Htn, drop_app_length. apply run_frame_lines.
Qed.

Lemma C7_one_frame_per_cycle_witness :
  wf booted /\
  exists s',
    loop env_toggle booted = Some (tt, s') /\
    analogSliderValues s' = [512; 0; 1023; 256; 999] /\
    frame_lines (drop (length (trace booted)) (trace s')) = ["512|0|1023|256|999"].
Proof.
  split; [reflexivity |].
  destruct (C7_one_frame_per_cycle env_toggle booted eq_refl)
    as (s' & vs & rest & Hrun & _ & Hvs & _ & Harr & _ & _ & _ & _ & Hfr & _).
  exists s'. split; [exact Hrun |]. rewrite Harr, Hfr, Hvs. split; reflexivity.
Defined.

(** C8. [sendSliderValues] leaves the clock, the channel array and both
    stored switch states as they were: its only effect is one more line
    on the serial port, and that line is a function of the array alone.
    Called again on the unchanged array it prints the same line, so the
    bytes sent by the two calls are identical. *)
Theorem C8_encoder_pure (s : Board) :
  wf s ->
  exists line,
    line = frame_of (analogSliderValues s) /\
    sendSliderValues s =
      Some (tt, mkBoard (millis s) (analogSliderValues s) (prevSwitchState2 s)
                        (prevSwitchState3 s) (trace s ++ [EvPrintln (millis s) line])) /\
    (sendSliderValues;; sendSliderValues) s =
      Some (tt, mkBoard (millis s) (analogSliderValues s) (prevSwitchState2 s)
                        (prevSwitchState3 s)
                        (trace s ++ [EvPrintln (millis s) line; EvPrintln (millis s) line])) /\
    serial_bytes [EvPrintln (millis s) line; EvPrintln (millis s) line] =
      (serial_bytes [EvPrintln (millis s) line] ++
       serial_bytes [EvPrintln (millis s) line])%string.
Proof.
  intros Hwf. exists (frame_of (analogSliderValues s)).
  pose proof (sendSliderValues_for_frame NUM_SLIDERS s Hwf) as H1.
  split; [reflexivity | split; [exact H1 | split]].
  - erewrite bind_some; [| exact H1].
    unfold sendSliderValues. rewrite sendSliderValues_for_frame by exact Hwf.
    cbn [millis analogSliderValues prevSwitchState2 prevSwitchState3 trace].
    rewrite <- app_assoc. reflexivity.
  - apply (serial_bytes_app [_] [_]).
Qed.

Lemma C8_encoder_pure_witness :
  exists line,
    line = frame_of [3; 1; 4; 1; 5] /\
    sendSliderValues (mkBoard 7 [3; 1; 4; 1; 5] HIGH LOW []) =
      Some (tt, mkBoard 7 [3; 1; 4; 1; 5] HIGH LOW ([] ++ [EvPrintln 7 line])) /\
    (sendSliderValues;; sendSliderValues) (mkBoard 7 [3; 1; 4; 1; 5] HIGH LOW []) =
      Some (tt, mkBoard 7 [3; 1; 4; 1; 5] HIGH LOW
                        ([] ++ [EvPrintln 7 line; EvPrintln 7 line])) /\
    serial_bytes [EvPrintln 7 line; EvPrintln 7 line] =
      (serial_bytes [EvPrintln 7 line] ++ serial_bytes [EvPrintln 7 line])%string.
Proof. apply (C8_encoder_pure (mkBoard 7 [3; 1; 4; 1; 5] HIGH LOW [])). reflexivity. Defined.

(** C9. The stored switch states start [LOW].  If a switch reads [HIGH]
    at the first poll (120 ms after power-on), the first iteration prints
    its event line although no [LOW] was ever read on it; if both do,
    the first iteration prints the frame and then both event lines. *)
Theorem C9_startup_event (env : Env) (k : slot) :
  gpio env (slot_pin k) 120 = HIGH ->
  exists s',
    firmware env 1 = Some s' /\
    slot_state k power_on = LOW /\
    polled (slot_pin k) (trace s') = [HIGH] /\
    line_count (slot_line k) (trace s') = 1%nat /\
    (gpio env (slot_pin (other k)) 120 = HIGH ->
     serial_lines (trace s') = [frame_of (sampled env 0); "WORKS 2"; "WORKS 1"]).
Proof.
  intros Hk. exists (run env 1 booted). split; [apply firmware_run |].
  split; [destruct k; reflexivity |].
  change (trace (run env 1 booted)) with (trace booted ++ cycle_trace env 0 LOW LOW).
  rewrite polled_app, line_count_app, serial_lines_app, cycle_polled, cycle_line_count,
    cycle_serial_lines.
  change (0 + 120) with 120. rewrite Hk.
  split; [destruct k; reflexivity | split; [destruct k; reflexivity |]].
  intros Ho. destruct k; cbn [slot_pin other] in Hk, Ho; rewrite Hk, Ho; reflexivity.
Qed.

Lemma C9_startup_event_witness :
  gpio env_idle (slot_pin Switch2) 120 = HIGH /\
  exists s',
    firmware env_idle 1 = Some s' /\
    polled switchPin2 (trace s') = [HIGH] /\
    line_count "WORKS 2" (trace s') = 1%nat /\
    serial_lines (trace s') = ["0|0|0|0|0"; "WORKS 2"; "WORKS 1"].
Proof.
  split; [reflexivity |].
  destruct (C9_startup_event env_idle Switch2 eq_refl) as (s' & Hrun & _ & Hp & Hc & Hb).
  exists s'. split; [exact Hrun | split; [exact Hp | split; [exact Hc |]]].
  rewrite Hb; reflexivity.
Defined.

(** C10. Two runs of the firmware, on any two environments, in which
    the analog reads return the same sequence of values and the digital
    reads return the same sequence of levels, end in the same board with
    the same log, and so send the same bytes: nothing but the values
    read reaches the output. *)
Theorem C10_output_determined_by_reads (env1 env2 : Env) (n : nat) :
  analog_values (firmware_log env1 n) = analog_values (firmware_log env2 n) ->
  digital_values (firmware_log env1 n) = digital_values (firmware_log env2 n) ->
  exists s',
    firmware env1 n = Some s' /\ firmware env2 n = Some s' /\
    firmware_log env1 n = firmware_log env2 n /\
    serial_bytes (firmware_log env1 n) = serial_bytes (firmware_log env2 n).
Proof.
  intros Ha Hd.
  destruct (firmware_log_run env1 n) as [Hr1 Hl1].
  destruct (firmware_log_run env2 n) as [Hr2 Hl2].
  rewrite Hl1, Hl2, !analog_values_app in Ha. apply app_inv_head in Ha.
  rewrite Hl1, Hl2, !digital_values_app in Hd. apply app_inv_head in Hd.
  pose proof (run_determined env1 env2 booted n Ha Hd) as Heq.
  assert (Hlog : firmware_log env1 n = firmware_log env2 n).
  { unfold firmware_log. rewrite Hr1, Hr2, Heq. reflexivity. }
  exists (run env1 n booted).
  split; [exact Hr1 | split; [rewrite Heq; exact Hr2 | split; [exact Hlog |]]].
  rewrite Hlog. reflexivity.
Qed.

Lemma C10_output_determined_by_reads_witness :
  exists s',
    firmware env_toggle 4 = Some s' /\ firmware env_toggle_noisy 4 = Some s' /\
    firmware_log env_toggle 4 = firmware_log env_toggle_noisy 4 /\
    serial_bytes (firmware_log env_toggle 4) = serial_bytes (firmware_log env_toggle_noisy 4).
Proof.
  apply (C10_output_determined_by_reads env_toggle env_toggle_noisy 4);
    vm_compute; reflexivity.
Defined.

(** * Further properties of the sketch *)

(** ** The [int] range *)

Lemma int16_range v : in_int_range (int16 v).
Proof.
  unfold in_int_range, int16.
  pose proof (Z.mod_pos_bound (v + 32768) 65536 ltac:(lia)). lia.
Qed.

Lemma int16_id v : in_int_range v -> int16 v = v.
Proof. unfold in_int_range, int16. intros H. rewrite Z.mod_small; lia. Qed.

(** ** Reading the decimal form back *)

Lemma digit_char_not_minus d : 0 <= d < 10 -> Ascii.eqb (digit_char d) "-" = false.
Proof.
  intros H.
  assert (Hc : d = 0 \/ d = 1 \/ d = 2 \/ d = 3 \/ d = 4 \/ d = 5 \/ d = 6 \/ d = 7 \/
               d = 8 \/ d = 9) by lia.
  clear H. repeat (destruct Hc as [-> | Hc]; [reflexivity |]). subst d. reflexivity.
Qed.

Lemma utoa_acc_head_digit fuel : forall u acc,
  exists d r, 0 <= d < 10 /\ utoa_acc fuel u acc = String (digit_char d) r.
Proof.
  induction fuel as [| fuel IH]; intros u acc; cbn [utoa_acc].
  - exists (u mod 10), acc. split; [apply Z.mod_pos_bound; lia | reflexivity].
  - destruct (u / 10 =? 0); [| apply IH].
    exists (u mod 10), acc. split; [apply Z.mod_pos_bound; lia | reflexivity].
Qed.

Lemma utoa_value u : 0 <= u < 100000 -> decimal_value (utoa u) = u.
Proof.
  intros Hu. unfold utoa. rewrite utoa_acc_value by (change (10 ^ (Z.of_nat 4 + 1)) with 100000; lia).
  cbn [String.length decimal_value]. lia.
Qed.

Lemma parse_int_String_of_int v : parse_int (String_of_int v) = int16 v.
Proof.
  pose proof (int16_range v) as Hr. unfold in_int_range in Hr.
  unfold String_of_int, itoa. destruct (Z.ltb_spec (int16 v) 0) as [Hneg | Hpos].
  - cbn [parse_int]. change (Ascii.eqb "-" "-") with true. cbn iota.
    rewrite utoa_value by lia. lia.
  - pose proof (utoa_value (int16 v) ltac:(lia)) as Hval.
    unfold utoa in *. destruct (utoa_acc_head_digit 4 (int16 v) EmptyString) as (d & r & Hd & E).
    rewrite E in *. cbn [parse_int]. rewrite (digit_char_not_minus d Hd). exact Hval.
Qed.

(** ** Cutting a frame line at the delimiters *)

Lemma count_char_cons_zero c d (s : string) :
  count_char c (String d s) = O -> Ascii.eqb d c = false /\ count_char c s = O.
Proof. cbn [count_char]. destruct (Ascii.eqb d c); [discriminate | auto]. Qed.

Lemma split_bar_field (d rest : string) :
  count_char "|" d = O ->
  split_bar (d ++ String "|" rest) = d :: split_bar rest.
Proof.
  induction d as [| c d IH]; intros Hd; [reflexivity |].
  apply count_char_cons_zero in Hd as [Hc Hd].
  rewrite append_cons. cbn [split_bar]. rewrite Hc, (IH Hd). reflexivity.
Qed.

Lemma split_bar_last (d : string) : count_char "|" d = O -> split_bar d = [d].
Proof.
  induction d as [| c d IH]; intros Hd; [reflexivity |].
  apply count_char_cons_zero in Hd as [Hc Hd].
  cbn [split_bar]. rewrite Hc, (IH Hd). reflexivity.
Qed.

Lemma split_bar_frame_of v (vs : list Z) :
  split_bar (frame_of (v :: vs)) = String_of_int <$> (v :: vs).
Proof.
  revert v. induction vs as [| w vs IH]; intros v.
  - apply split_bar_last, String_of_int_bars.
  - rewrite frame_of_cons2.
    change ("|" ++ frame_of (w :: vs))%string with (String "|" (frame_of (w :: vs))).
    rewrite split_bar_field by apply String_of_int_bars.
    rewrite IH. reflexivity.
Qed.

Lemma decode_frame_of (vs : list Z) : decode_frame (frame_of vs) = int16 <$> vs.
Proof.
  destruct vs as [| v vs]; [reflexivity |].
  destruct (frame_of_head v vs) as (c & Hc & _).
  unfold decode_frame. rewrite split_bar_frame_of.
  destruct (frame_of (v :: vs)) as [| c' r]; [discriminate Hc |].
  rewrite <- list_fmap_compose. apply list_fmap_ext. intros _ x _.
  apply parse_int_String_of_int.
Qed.

(** ** The alphabet and the length of a frame line *)

Lemma digit_char_neq c u : decimal_char c = false -> Ascii.eqb (digit_char (u mod 10)) c = false.
Proof.
  intros Hc. destruct (Ascii.eqb_spec (digit_char (u mod 10)) c) as [<- | _]; [| reflexivity].
  rewrite digit_char_decimal in Hc. discriminate Hc.
Qed.

Lemma utoa_acc_count c fuel : decimal_char c = false -> forall u acc,
  count_char c (utoa_acc fuel u acc) = count_char c acc.
Proof.
  intros Hc. induction fuel as [| fuel IH]; intros u acc; cbn [utoa_acc].
  - cbn [count_char]. rewrite (digit_char_neq c u Hc). reflexivity.
  - destruct (u / 10 =? 0); [| rewrite IH]; cbn [count_char];
      rewrite (digit_char_neq c u Hc); reflexivity.
Qed.

Lemma String_of_int_count c x : decimal_char c = false -> count_char c (String_of_int x) = O.
Proof.
  intros Hc. unfold String_of_int, itoa, utoa. destruct (int16 x <? 0).
  - cbn [count_char]. destruct (Ascii.eqb_spec "-" c) as [<- | _]; [discriminate Hc |].
    apply (utoa_acc_count c 4 Hc).
  - apply (utoa_acc_count c 4 Hc).
Qed.

Lemma frame_of_count c (vs : list Z) :
  decimal_char c = false -> c ≠ "|"%char -> count_char c (frame_of vs) = O.
Proof.
  intros Hc Hbar. induction vs as [| v vs IH]; [reflexivity |].
  destruct vs as [| w vs]; [apply String_of_int_count, Hc |].
  rewrite frame_of_cons2, !count_char_app, IH, String_of_int_count by exact Hc.
  cbn [count_char]. destruct (Ascii.eqb_spec "|" c) as [E | _]; [congruence | reflexivity].
Qed.

Lemma length_append (a b : string) :
  String.length (a ++ b) = (String.length a + String.length b)%nat.
Proof.
  induction a as [| c a IH]; [reflexivity |].
  rewrite append_cons. cbn [String.length]. rewrite IH. reflexivity.
Qed.

Lemma utoa_acc_length fuel : forall u acc k,
  (1 <= k)%nat -> 0 <= u < 10 ^ Z.of_nat k ->
  (String.length (utoa_acc fuel u acc) <= k + String.length acc)%nat.
Proof.
  induction fuel as [| fuel IH]; intros u acc k Hk Hu; cbn [utoa_acc].
  - cbn [String.length]. lia.
  - destruct (Z.eqb_spec (u / 10) 0) as [Hq | Hq]; [cbn [String.length]; lia |].
    destruct k as [| k]; [lia |].
    rewrite Nat2Z.inj_succ, Z.pow_succ_r in Hu by lia.
    assert (Hdiv : 0 <= u / 10 < 10 ^ Z.of_nat k)
      by (split; [apply Z.div_pos; lia | apply Z.div_lt_upper_bound; lia]).
    assert (Hk1 : (1 <= k)%nat).
    { destruct k as [| k]; [| lia]. change (10 ^ Z.of_nat 0) with 1 in Hdiv. lia. }
    specialize (IH (u / 10) (String (digit_char (u mod 10)) acc) k Hk1 Hdiv).
    cbn [String.length] in IH. lia.
Qed.

Lemma String_of_int_length x : (String.length (String_of_int x) <= 6)%nat.
Proof.
  pose proof (int16_range x) as Hr. unfold in_int_range in Hr.
  unfold String_of_int, itoa, utoa. destruct (Z.ltb_spec (int16 x) 0).
  - cbn [String.length].
    pose proof (utoa_acc_length 4 (- int16 x) EmptyString 5 ltac:(lia)
                  ltac:(change (10 ^ Z.of_nat 5) with 100000; lia)) as H5.
    cbn [String.length] in H5. lia.
  - pose proof (utoa_acc_length 4 (int16 x) EmptyString 5 ltac:(lia)
                  ltac:(change (10 ^ Z.of_nat 5) with 100000; lia)) as H5.
    cbn [String.length] in H5. lia.
Qed.

Lemma String_of_int_length_adc x : 0 <= x <= 1023 -> (String.length (String_of_int x) <= 4)%nat.
Proof.
  intros Hx. unfold String_of_int. rewrite int16_id by (unfold in_int_range; lia).
  unfold itoa, utoa. destruct (Z.ltb_spec x 0); [lia |].
  pose proof (utoa_acc_length 4 x EmptyString 4 ltac:(lia)
                ltac:(change (10 ^ Z.of_nat 4) with 10000; lia)) as H4.
  cbn [String.length] in H4. lia.
Qed.

Lemma frame_of_length (vs : list Z) (w : nat) :
  Forall (fun v => (String.length (String_of_int v) <= w)%nat) vs ->
  (String.length (frame_of vs) <= (w + 1) * length vs - 1)%nat.
Proof.
  induction 1 as [| v vs Hv Hvs IH]; [cbn; lia |].
  destruct vs as [| v' vs]; [cbn [length]; change (frame_of [v]) with (String_of_int v); lia |].
  rewrite frame_of_cons2, !length_append. cbn [String.length length] in *. lia.
Qed.

(** ** Frame encoder: round trip, alphabet, length *)

(** X1. The frame line can be read back: cut at the delimiters and read
    as signed decimals, the line [sendSliderValues] prints gives back the
    array it was built from (as 16-bit [int]s, so unchanged when the
    values are [int]s), for any number of sliders; so two arrays that
    print the same line hold the same [int]s. *)
Theorem X1_frame_reads_back (vs : list Z) (t : Z) (p2 p3 : level) (tr : list io_event) :
  exists line,
    sendSliderValues_for (length vs) (mkBoard t vs p2 p3 tr) =
      Some (tt, mkBoard t vs p2 p3 (tr ++ [EvPrintln t line])) /\
    decode_frame line = int16 <$> vs /\
    (Forall in_int_range vs -> decode_frame line = vs) /\
    (forall ws, frame_of ws = line -> int16 <$> ws = int16 <$> vs).
Proof.
  exists (frame_of vs). split; [| split; [apply decode_frame_of | split]].
  - apply (sendSliderValues_for_frame (length vs) (mkBoard t vs p2 p3 tr)). reflexivity.
  - intros Hr. rewrite decode_frame_of. rewrite <- (list_fmap_id vs) at 2.
    apply list_fmap_ext. intros i v Hv. apply int16_id.
    eapply Forall_lookup_1; eassumption.
  - intros ws E. rewrite <- !decode_frame_of, E. reflexivity.
Qed.

(** X2. A frame line is made of digits, minus signs and delimiters only:
    it holds no line feed, carriage return or blank, so it is one line
    on the wire.  For [N >= 1] sliders it is at most [7 N - 1]
    characters long, and at most [5 N - 1] when the readings are ADC
    magnitudes (0 to 1023). *)
Theorem X2_frame_alphabet_and_length (vs : list Z) (t : Z) (p2 p3 : level)
    (tr : list io_event) :
  exists line,
    sendSliderValues_for (length vs) (mkBoard t vs p2 p3 tr) =
      Some (tt, mkBoard t vs p2 p3 (tr ++ [EvPrintln t line])) /\
    (forall c, decimal_char c = false -> c ≠ "|"%char -> count_char c line = O) /\
    count_char LF line = O /\ count_char "013"%char line = O /\
    count_char " "%char line = O /\
    (String.length line <= 7 * length vs - 1)%nat /\
    (Forall (fun v => 0 <= v <= 1023) vs -> (String.length line <= 5 * length vs - 1)%nat).
Proof.
  exists (frame_of vs). split.
  { apply (sendSliderValues_for_frame (length vs) (mkBoard t vs p2 p3 tr)). reflexivity. }
  split; [intros c Hc Hb; apply frame_of_count; assumption |].
  split; [apply frame_of_count; [reflexivity | discriminate] |].
  split; [apply frame_of_count; [reflexivity | discriminate] |].
  split; [apply frame_of_count; [reflexivity | discriminate] |].
  split.
  - apply (frame_of_length vs 6). apply Forall_forall. intros v _. apply String_of_int_length.
  - intros Hadc. apply (frame_of_length vs 4).
    eapply Forall_impl; [exact Hadc |]. cbn beta. intros v Hv. apply String_of_int_length_adc, Hv.
Qed.

(** ** Sampling *)

Lemma sampled_range env t : Forall in_int_range (sampled env t).
Proof. unfold sampled. apply Forall_fmap, Forall_forall. intros p _. apply int16_range. Qed.

Lemma int16_idem v : int16 (int16 v) = int16 v.
Proof. apply int16_id, int16_range. Qed.

(** X3. One sampling pass replaces every entry of the array, whatever
    it held: afterwards entry [i] is the value just read on
    [analogInputs[i]], as an [int] (unchanged when the ADC value is in
    the [int] range).  The pass reads [A1] .. [A5] once each, in index
    order, takes no time, prints nothing and leaves the stored switch
    states alone. *)
Theorem X3_sampling_replaces_all (env : Env) (s : Board) :
  wf s ->
  exists s',
    updateSliderValues env s = Some (tt, s') /\
    analogSliderValues s' = (fun p => int16 (adc env p (millis s))) <$> [A1; A2; A3; A4; A5] /\
    Forall in_int_range (analogSliderValues s') /\
    ((forall p, p ∈ analogInputs -> in_int_range (adc env p (millis s))) ->
     analogSliderValues s' = (fun p => adc env p (millis s)) <$> [A1; A2; A3; A4; A5]) /\
    millis s' = millis s /\
    prevSwitchState2 s' = prevSwitchState2 s /\
    prevSwitchState3 s' = prevSwitchState3 s /\
    analog_pins (drop (length (trace s)) (trace s')) = [A1; A2; A3; A4; A5] /\
    digital_values (drop (length (trace s)) (trace s')) = [] /\
    serial_lines (drop (length (trace s)) (trace s')) = [].
Proof.
  intros Hwf. eexists. split; [apply updateSliderValues_step, Hwf |].
  cbn [millis analogSliderValues prevSwitchState2 prevSwitchState3 trace].
  rewrite drop_app_length.
  split; [reflexivity | split; [apply sampled_range | split]].
  - intros Hr. unfold sampled, analogInputs. apply list_fmap_ext. intros i p Hp.
    apply int16_id, Hr. eapply list_elem_of_lookup_2, Hp.
  - repeat split; reflexivity.
Qed.

Lemma X3_sampling_replaces_all_witness :
  wf (mkBoard 50 [9; 9; 9; 9; 9] HIGH LOW []) /\
  exists s',
    updateSliderValues env_wander (mkBoard 50 [9; 9; 9; 9; 9] HIGH LOW []) = Some (tt, s') /\
    analogSliderValues s' = [87; 174; 261; 348; 435].
Proof.
  split; [reflexivity |].
  destruct (X3_sampling_replaces_all env_wander (mkBoard 50 [9; 9; 9; 9; 9] HIGH LOW []) eq_refl)
    as (s' & Hrun & _ & _ & Hv & _).
  exists s'. split; [exact Hrun |]. rewrite Hv; [reflexivity |].
  intros p Hp. unfold analogInputs in Hp.
  repeat (apply elem_of_cons in Hp as [-> | Hp]; [vm_compute; split; discriminate |]).
  inversion Hp.
Defined.

(** ** The frame of an iteration *)

Lemma printed_app (a b : list io_event) : printed (a ++ b) = printed a ++ printed b.
Proof. apply omap_app. Qed.

Lemma cycle_printed_head env t p2 p3 :
  exists more,
    printed (cycle_trace env t p2 p3) = (t + 20, frame_of (sampled env t)) :: more.
Proof. cycle_cases env t p2 p3; eexists; reflexivity. Qed.

(** X4. The frame an iteration of [loop] prints is the first line of
    the iteration, goes out 20 ms after the iteration began, and reads
    back as exactly the array the board holds when the iteration ends:
    the readings taken at the start of the iteration, all of them in the
    [int] range. *)
Theorem X4_frame_reports_the_array (env : Env) (s : Board) :
  wf s ->
  exists s' line more,
    loop env s = Some (tt, s') /\
    printed (drop (length (trace s)) (trace s')) = (millis s + 20, line) :: more /\
    frame_lines (drop (length (trace s)) (trace s')) = [line] /\
    decode_frame line = analogSliderValues s' /\
    analogSliderValues s' = (fun p => int16 (adc env p (millis s))) <$> [A1; A2; A3; A4; A5] /\
    Forall in_int_range (analogSliderValues s').
Proof.
  intros Hwf. destruct (loop_logs env s Hwf) as (Hrun & _ & Htr).
  destruct (cycle_printed_head env (millis s) (prevSwitchState2 s) (prevSwitchState3 s))
    as (more & Hp).
  exists (loop_result env s), (frame_of (sampled env (millis s))), more.
  rewrite Htr, drop_app_length.
  split; [exact Hrun | split; [exact Hp | split; [apply cycle_frame_lines | split]]].
  - rewrite decode_frame_of. cbn [loop_result analogSliderValues].
    rewrite <- (list_fmap_id (sampled env (millis s))) at 2.
    apply list_fmap_ext. intros i v Hv. apply int16_id.
    eapply Forall_lookup_1; [apply sampled_range | exact Hv].
  - split; [reflexivity | apply sampled_range].
Qed.

Lemma X4_frame_reports_the_array_witness :
  wf booted /\
  exists s' line more,
    loop env_wander booted = Some (tt, s') /\
    printed (drop (length (trace booted)) (trace s')) = (20, line) :: more /\
    decode_frame line = [37; 74; 111; 148; 185].
Proof.
  split; [reflexivity |].
  destruct (X4_frame_reports_the_array env_wander booted eq_refl)
    as (s' & line & more & Hrun & Hp & _ & Hd & Ha & _).
  exists s', line, more. split; [exact Hrun | split; [exact Hp |]].
  rewrite Hd, Ha. reflexivity.
Defined.

(** ** Configuration before use *)

Lemma setup_logs s :
  setup s =
  Some (tt, mkBoard (millis s) (analogSliderValues s) (prevSwitchState2 s)
                    (prevSwitchState3 s) (trace s ++ trace booted)).
Proof.
  destruct s as [t vs p2 p3 tr]. cbv -[app]. rewrite <- !app_assoc. reflexivity.
Qed.

Lemma cycle_after_setup env t p2 p3 : Forall after_setup (cycle_trace env t p2 p3).
Proof.
  cycle_cases env t p2 p3; cbn -[int16];
    repeat (apply Forall_cons; split;
            [cbn [after_setup];
             first [exact I | left; reflexivity | right; reflexivity
                   | unfold analogInputs; repeat constructor] |]);
    constructor.
Qed.

Lemma run_after_setup env n s : Forall after_setup (run_trace env n s).
Proof.
  induction n as [| n IH]; [constructor |].
  cbn [run_trace]. apply Forall_app. split; [exact IH | apply cycle_after_setup].
Qed.

(** X5. [setup()], on any board, only configures: it makes pins 7 and 6
    pulled-up inputs, then [A1] .. [A5] plain inputs, then opens the
    port at 9600 baud; it reads no pin, prints nothing, takes no time
    and leaves the globals alone.  In the firmware these eight steps
    come first, and everything after them is a read of a pin [setup()]
    configured (analog reads on the plain inputs, digital reads on the
    pulled-up ones) or a printed line: no pin is used unconfigured or
    reconfigured, and nothing is printed before the port is open. *)
Theorem X5_configured_before_use (env : Env) (n : nat) (s : Board) :
  setup s =
    Some (tt, mkBoard (millis s) (analogSliderValues s) (prevSwitchState2 s)
                      (prevSwitchState3 s)
                      (trace s ++
                       [EvPinMode (DigitalPin 7) INPUT_PULLUP;
                        EvPinMode (DigitalPin 6) INPUT_PULLUP;
                        EvPinMode A1 INPUT; EvPinMode A2 INPUT; EvPinMode A3 INPUT;
                        EvPinMode A4 INPUT; EvPinMode A5 INPUT; EvSerialBegin 9600])) /\
  exists rest,
    firmware_log env n =
      [EvPinMode (DigitalPin 7) INPUT_PULLUP; EvPinMode (DigitalPin 6) INPUT_PULLUP;
       EvPinMode A1 INPUT; EvPinMode A2 INPUT; EvPinMode A3 INPUT;
       EvPinMode A4 INPUT; EvPinMode A5 INPUT; EvSerialBegin 9600] ++ rest /\
    Forall after_setup rest /\
    (forall t p v, EvAnalogRead t p v ∈ firmware_log env n ->
                   (p, INPUT) ∈ pin_modes (firmware_log env n)) /\
    (forall t p v, EvDigitalRead t p v ∈ firmware_log env n ->
                   (p, INPUT_PULLUP) ∈ pin_modes (firmware_log env n)).
Proof.
  split; [apply setup_logs |].
  destruct (firmware_log_run env n) as [_ Hlog].
  pose proof (run_after_setup env n booted) as Hrest.
  exists (run_trace env n booted). split; [exact Hlog | split; [exact Hrest |]].
  assert (Hmodes : pin_modes (firmware_log env n) =
                   [(DigitalPin 7, INPUT_PULLUP); (DigitalPin 6, INPUT_PULLUP);
                    (A1, INPUT); (A2, INPUT); (A3, INPUT); (A4, INPUT); (A5, INPUT)] ++
                   pin_modes (run_trace env n booted)).
  { rewrite Hlog. unfold pin_modes. rewrite omap_app. reflexivity. }
  rewrite Hmodes, Hlog. split.
  - intros t p v Hin. apply elem_of_app in Hin as [Hin | Hin].
    + repeat (apply elem_of_cons in Hin as [Hin | Hin]; [discriminate Hin |]).
      inversion Hin.
    + rewrite Forall_forall in Hrest. specialize (Hrest _ Hin). cbn in Hrest.
      apply elem_of_app. left. unfold analogInputs in Hrest.
      repeat (apply elem_of_cons in Hrest as [-> | Hrest]; [repeat constructor |]).
      inversion Hrest.
  - intros t p v Hin. apply elem_of_app in Hin as [Hin | Hin].
    + repeat (apply elem_of_cons in Hin as [Hin | Hin]; [discriminate Hin |]).
      inversion Hin.
    + rewrite Forall_forall in Hrest. specialize (Hrest _ Hin). cbn in Hrest.
      apply elem_of_app. left. unfold switchPin2, switchPin3 in Hrest.
      destruct Hrest as [-> | ->]; repeat constructor.
Qed.

(** ** What holds after any number of iterations *)

(** X6. From power-on the firmware never indexes outside its arrays:
    for every environment and every number of iterations the run is
    defined, the array still has its five entries, each an [int], and
    each stored switch state is the last level polled on its pin
    ([LOW] as long as none was). *)
Theorem X6_reachable_boards (env : Env) (n : nat) :
  exists s,
    firmware env n = Some s /\
    length (analogSliderValues s) = 5%nat /\
    Forall in_int_range (analogSliderValues s) /\
    forall k, slot_state k s = List.last (polled (slot_pin k) (trace s)) LOW.
Proof.
  destruct (firmware_log_run env n) as [Hrun _].
  exists (run env n booted). split; [exact Hrun |].
  split; [apply run_wf, booted_wf | split].
  - destruct n as [| n]; [repeat constructor; unfold in_int_range; lia |].
    rewrite run_S. apply sampled_range.
  - intros k. rewrite run_slot_state, run_trace_spec, polled_app.
    change (polled (slot_pin k) (trace booted)) with (@nil level).
    destruct k; reflexivity.
Qed.

(** ** Elapsed time *)

Lemma changes_cons2 a b ls :
  changes (a :: b :: ls) = (changes [a; b] + changes (b :: ls))%nat.
Proof. cbn [changes]. lia. Qed.

Lemma changes_snoc p ls x :
  changes (p :: ls ++ [x]) = (changes (p :: ls) + changes [last_level p ls; x])%nat.
Proof.
  unfold last_level. revert p. induction ls as [| a ls IH]; intros p.
  - cbn [app List.last changes]. lia.
  - cbn [app].
    rewrite (changes_cons2 p a (ls ++ [x])), (changes_cons2 p a ls), IH.
    rewrite last_cons_default. lia.
Qed.

Lemma changes_le p ls : (changes (p :: ls) <= length ls)%nat.
Proof.
  revert p. induction ls as [| a ls IH]; intros p; [cbn; lia |].
  rewrite changes_cons2. specialize (IH a). cbn [changes length] in *.
  case_decide; lia.
Qed.

Lemma debounce_delay_changes prev read :
  debounce_delay prev read = 50 * Z.of_nat (changes [prev; read]).
Proof.
  unfold debounce_delay. cbn [changes].
  destruct prev, read; repeat case_decide; try congruence; reflexivity.
Qed.

Lemma run_millis_exact env n s :
  millis (run env n s) =
  millis s + 140 * Z.of_nat n +
  50 * Z.of_nat (changes (prevSwitchState2 s :: polled switchPin2 (run_trace env n s)) +
                 changes (prevSwitchState3 s :: polled switchPin3 (run_trace env n s))).
Proof.
  induction n as [| n IH]; [cbn; lia |].
  pose proof (run_polled env n s Switch2) as P2.
  pose proof (run_polled env n s Switch3) as P3.
  pose proof (run_slot_state env n s Switch2) as S2.
  pose proof (run_slot_state env n s Switch3) as S3.
  cbn [slot_pin slot_state] in P2, P3, S2, S3.
  rewrite P2, P3, !changes_snoc, <- S2, <- S3.
  rewrite run_S. unfold loop_result at 1. cbn [millis].
  rewrite IH, !debounce_delay_changes. lia.
Qed.

(** X7. The time [n] iterations of [loop] take is 140 ms per iteration
    plus 50 ms for every change of level a switch was polled with (first
    against the stored level, then from poll to poll), rising or
    falling; so it lies between [140 n] and [240 n] ms. *)
Theorem X7_elapsed_time (env : Env) (n : nat) (s : Board) :
  wf s ->
  exists s' tr,
    cycles env n s = Some (tt, s') /\ trace s' = trace s ++ tr /\
    millis s' =
      millis s + 140 * Z.of_nat n +
      50 * Z.of_nat (changes (prevSwitchState2 s :: polled switchPin2 tr) +
                     changes (prevSwitchState3 s :: polled switchPin3 tr)) /\
    millis s + 140 * Z.of_nat n <= millis s' <= millis s + 240 * Z.of_nat n.
Proof.
  intros Hwf. destruct (cycles_logs env n s Hwf) as (Hrun & _ & Htr).
  eexists _, _. split; [exact Hrun | split; [exact Htr |]].
  pose proof (run_millis_exact env n s) as Hm. split; [exact Hm |].
  pose proof (changes_le (prevSwitchState2 s) (polled switchPin2 (run_trace env n s))) as H2.
  pose proof (changes_le (prevSwitchState3 s) (polled switchPin3 (run_trace env n s))) as H3.
  pose proof (run_polled_length env n s Switch2) as L2.
  pose proof (run_polled_length env n s Switch3) as L3.
  cbn [slot_pin] in L2, L3. lia.
Qed.

Lemma X7_elapsed_time_witness :
  wf power_on /\
  exists s' tr,
    cycles env_toggle 4 power_on = Some (tt, s') /\
    polled switchPin2 tr = [HIGH; LOW; LOW; HIGH] /\
    polled switchPin3 tr = [HIGH; HIGH; HIGH; HIGH] /\
    millis s' = 140 * 4 + 50 * 4.
Proof.
  split; [reflexivity |].
  destruct (X7_elapsed_time env_toggle 4 power_on eq_refl) as (s' & tr & Hrun & Htr & Hm & _).
  exists s', tr. split; [exact Hrun |]. rewrite Hm. clear Hm.
  vm_compute in Hrun. injection Hrun as <-. cbn [trace power_on app] in Htr. subst tr.
  repeat split; reflexivity.
Defined.

(** ** Frame cadence *)

Lemma frame_times_app (a b : list io_event) :
  frame_times (a ++ b) = frame_times a ++ frame_times b.
Proof. apply omap_app. Qed.

Lemma cycle_frame_times env t p2 p3 : frame_times (cycle_trace env t p2 p3) = [t + 20].
Proof.
  cycle_cases env t p2 p3; cbn; repeat case_decide; try reflexivity;
    exfalso; intuition congruence.
Qed.

Lemma run_frame_times env n s :
  frame_times (run_trace env n s) =
  (fun x => x - 100) <$> poll_times (slot_pin Switch2) (run_trace env n s).
Proof.
  induction n as [| n IH]; [reflexivity |].
  cbn [run_trace]. rewrite frame_times_app, poll_times_app, fmap_app, IH,
    cycle_frame_times, cycle_poll_times.
  cbn [fmap list_fmap]. repeat f_equal. lia.
Qed.

Lemma spaced_shift d c (ts : list Z) :
  spaced d ts -> spaced d ((fun x => x - c) <$> ts).
Proof.
  induction ts as [| a ts IH]; [auto |]. intros [Ha Hts].
  rewrite fmap_cons. split; [| apply IH, Hts].
  apply Forall_fmap. eapply Forall_impl; [exact Ha |]. cbn. intros y Hy. lia.
Qed.

Lemma gaps_le_shift g c (ts : list Z) :
  gaps_le g ts -> gaps_le g ((fun x => x - c) <$> ts).
Proof.
  induction ts as [| a ts IH]; [auto |]. destruct ts as [| b ts]; [auto |].
  intros [Hab Hts]. rewrite !fmap_cons. split; [lia |].
  exact (IH Hts).
Qed.

(** X8. Frame cadence: over any run of [loop], the frame lines go out
    20 ms into each iteration, one per iteration; any two are at least
    140 ms apart and two consecutive ones at most 240 ms apart, whatever
    the switches do. *)
Theorem X8_frame_cadence (env : Env) (n : nat) (s : Board) :
  wf s ->
  exists s' tr,
    cycles env n s = Some (tt, s') /\ trace s' = trace s ++ tr /\
    length (frame_times tr) = n /\
    head (frame_times tr) = (if n is O then None else Some (millis s + 20)) /\
    spaced 140 (frame_times tr) /\
    gaps_le 240 (frame_times tr).
Proof.
  intros Hwf. destruct (cycles_logs env n s Hwf) as (Hrun & _ & Htr).
  eexists _, _. split; [exact Hrun | split; [exact Htr |]].
  rewrite run_frame_times. split; [| split; [| split]].
  - pose proof (run_polled_length env n s Switch2) as L.
    rewrite run_polled_map, length_fmap in L. rewrite length_fmap. exact L.
  - destruct n as [| n]; [reflexivity |].
    rewrite run_poll_times_shift. cbn. f_equal. lia.
  - apply spaced_shift, run_poll_times_spaced.
  - apply gaps_le_shift, run_poll_times_gaps.
Qed.

Lemma X8_frame_cadence_witness :
  wf power_on /\
  exists s' tr,
    cycles env_toggle 4 power_on = Some (tt, s') /\
    frame_times tr = [20; 260; 450; 590] /\
    spaced 140 (frame_times tr) /\ gaps_le 240 (frame_times tr).
Proof.
  split; [reflexivity |].
  destruct (X8_frame_cadence env_toggle 4 power_on eq_refl)
    as (s' & tr & Hrun & Htr & _ & _ & Hsp & Hg).
  exists s', tr. split; [exact Hrun | split; [| split; [exact Hsp | exact Hg]]].
  vm_compute in Hrun. injection Hrun as <-. cbn [trace power_on app] in Htr. subst tr.
  reflexivity.
Defined.

(** ** Order and instants of the lines of an iteration *)

(** X9. Within an iteration both switches are read at the same instant,
    120 ms in, after the frame went out; the line of switch 2, if any,
    is printed at that instant and before the line of switch 3; the line
    of switch 3, if any, reports the level read at that same instant but
    goes out 50 ms later whenever switch 2 changed level, rising or
    falling. *)
Theorem X9_iteration_timeline (env : Env) (s : Board) :
  wf s ->
  exists s' tr,
    loop env s = Some (tt, s') /\ trace s' = trace s ++ tr /\
    let t := millis s in
    let read2 := gpio env switchPin2 (t + 120) in
    let read3 := gpio env switchPin3 (t + 120) in
    poll_times switchPin2 tr = [t + 120] /\
    poll_times switchPin3 tr = [t + 120] /\
    printed tr =
      (t + 20, frame_of (analogSliderValues s')) ::
      (if decide (read2 ≠ prevSwitchState2 s /\ read2 = HIGH)
       then [(t + 120, "WORKS 2")] else []) ++
      (if decide (read3 ≠ prevSwitchState3 s /\ read3 = HIGH)
       then [(t + 120 + (if decide (read2 ≠ prevSwitchState2 s) then 50 else 0), "WORKS 1")]
       else []).
Proof.
  intros Hwf. destruct (loop_logs env s Hwf) as (Hrun & _ & Htr).
  eexists _, _. split; [exact Hrun | split; [exact Htr |]].
  cbn zeta. split; [apply (cycle_poll_times _ _ _ _ Switch2) |].
  split; [apply (cycle_poll_times _ _ _ _ Switch3) |].
  cbn [loop_result analogSliderValues].
  generalize (prevSwitchState2 s), (prevSwitchState3 s), (millis s). intros p2 p3 t.
  unfold cycle_trace, edge_line, debounce_delay.
  destruct (gpio env switchPin2 (t + 120)), (gpio env switchPin3 (t + 120)), p2, p3;
    repeat case_decide; try (exfalso; intuition congruence); reflexivity.
Qed.

Lemma X9_iteration_timeline_witness :
  wf power_on /\
  exists s' tr,
    loop env_idle power_on = Some (tt, s') /\
    printed tr = [(20, "0|0|0|0|0"); (120, "WORKS 2"); (170, "WORKS 1")].
Proof.
  split; [reflexivity |].
  destruct (X9_iteration_timeline env_idle power_on eq_refl) as (s' & tr & Hrun & Htr & _ & _ & Hp).
  exists s', tr. split; [exact Hrun |]. rewrite Hp. clear Hp.
  vm_compute in Hrun. injection Hrun as <-. reflexivity.
Defined.

(** ** How often a switch can fire *)

Lemma rising_edges_half p ls :
  (rising_edges (p :: ls) <= (length ls + (if p is LOW then 1 else 0)) / 2)%nat.
Proof.
  revert p. induction ls as [| a ls IH]; intros p; [destruct p; cbn; lia |].
  rewrite rising_edges_cons2. specialize (IH a). cbn [length].
  destruct p, a; cbn [rising_edges] in *.
  - replace (S (length ls) + 1)%nat with (length ls + 1 + 1)%nat by lia.
    pose proof (Nat.Div0.div_le_mono (length ls + 1) (length ls + 1 + 1) 2 ltac:(lia)). lia.
  - replace (S (length ls) + 1)%nat with (1 * 2 + (length ls + 0))%nat by lia.
    rewrite Nat.div_add_l by lia. lia.
  - replace (S (length ls) + 0)%nat with (length ls + 1)%nat by lia. lia.
  - pose proof (Nat.Div0.div_le_mono (length ls + 0) (S (length ls) + 0) 2 ltac:(lia)). lia.
Qed.

Lemma cycle_serial_lines_length env t p2 p3 :
  length (serial_lines (cycle_trace env t p2 p3)) =
  (1 + line_count (slot_line Switch2) (cycle_trace env t p2 p3)
     + line_count (slot_line Switch3) (cycle_trace env t p2 p3))%nat.
Proof.
  cycle_cases env t p2 p3; cbn; repeat (case_decide; try congruence); reflexivity.
Qed.

Lemma run_serial_lines_length env n s :
  length (serial_lines (run_trace env n s)) =
  (n + line_count (slot_line Switch2) (run_trace env n s)
     + line_count (slot_line Switch3) (run_trace env n s))%nat.
Proof.
  induction n as [| n IH]; [reflexivity |].
  cbn [run_trace]. rewrite serial_lines_app, length_app, !line_count_app, IH,
    cycle_serial_lines_length. lia.
Qed.

(** X10. A switch cannot fire in two consecutive iterations: over [n]
    iterations it prints at most [(n + 1) / 2] event lines, and at most
    [n / 2] when its stored level starts [HIGH]; so [n] iterations print
    at most [2 n + 1] lines in all, [n] of them frames. *)
Theorem X10_event_rate (env : Env) (n : nat) (s : Board) :
  wf s ->
  exists s' tr,
    cycles env n s = Some (tt, s') /\ trace s' = trace s ++ tr /\
    (forall k,
       (line_count (slot_line k) tr <= (n + 1) / 2)%nat /\
       (slot_state k s = HIGH -> (line_count (slot_line k) tr <= n / 2)%nat)) /\
    length (serial_lines tr) =
      (n + line_count "WORKS 2" tr + line_count "WORKS 1" tr)%nat /\
    (length (serial_lines tr) <= 2 * n + 1)%nat.
Proof.
  intros Hwf. destruct (cycles_logs env n s Hwf) as (Hrun & _ & Htr).
  eexists _, _. split; [exact Hrun | split; [exact Htr |]].
  assert (Hk : forall k,
    (line_count (slot_line k) (run_trace env n s) <= (n + 1) / 2)%nat /\
    (slot_state k s = HIGH -> (line_count (slot_line k) (run_trace env n s) <= n / 2)%nat)).
  { intros k. rewrite run_line_count.
    pose proof (rising_edges_half (slot_state k s) (polled (slot_pin k) (run_trace env n s))) as H.
    rewrite run_polled_length in H. split.
    - destruct (slot_state k s); [exact H |].
      pose proof (Nat.Div0.div_le_mono (n + 0) (n + 1) 2 ltac:(lia)). lia.
    - intros E. rewrite E in *. rewrite Nat.add_0_r in H. exact H. }
  split; [exact Hk |].
  pose proof (run_serial_lines_length env n s) as Hlen. cbn [slot_line] in Hlen.
  split; [exact Hlen |].
  destruct (Hk Switch2) as [H2 _]. destruct (Hk Switch3) as [H3 _].
  cbn [slot_line] in H2, H3.
  pose proof (Nat.Div0.mul_div_le (n + 1) 2). lia.
Qed.

Lemma X10_event_rate_witness :
  wf power_on /\
  exists s' tr,
    cycles env_blink 4 power_on = Some (tt, s') /\
    line_count "WORKS 2" tr = 2%nat /\
    (line_count "WORKS 2" tr <= (4 + 1) / 2)%nat /\
    length (serial_lines tr) = 6%nat.
Proof.
  split; [reflexivity |].
  destruct (X10_event_rate env_blink 4 power_on eq_refl) as (s' & tr & Hrun & Htr & Hk & _).
  exists s', tr. split; [exact Hrun |].
  destruct (Hk Switch2) as [H2 _]. cbn [slot_line] in H2.
  split; [| split; [exact H2 |]];
    vm_compute in Hrun; injection Hrun as <-; cbn [trace power_on app] in Htr; subst tr;
    reflexivity.
Defined.

(** ** The debug printer *)

Lemma printSliderValues_run wire s : wf s ->
  printSliderValues wire s =
  Some ((wire ++ debug_line (String_of_int <$> analogSliderValues s))%string, s).
Proof.
  intros Hwf. destruct (wf_inv s Hwf) as (a & b & c & d & e & Hv).
  destruct s as [t vs p2 p3 tr]. cbn [analogSliderValues] in *. subst vs.
  cbv -[String_of_int String.append]. rewrite !append_assoc. reflexivity.
Qed.

Lemma debug_line_five (f1 f2 f3 f4 f5 : string) :
  debug_line [f1; f2; f3; f4; f5] =
  ("Slider #1: " ++ f1 ++ " mV | Slider #2: " ++ f2 ++ " mV | Slider #3: " ++ f3 ++
   " mV | Slider #4: " ++ f4 ++ " mV | Slider #5: " ++ f5 ++ " mV" ++ String LF "")%string.
Proof.
  cbv -[String.append]. rewrite !append_assoc. reflexivity.
Qed.

(** X11. [printSliderValues] changes nothing on the board and sends one
    line of text after whatever the port carried before: the five
    readings in index order, in the same decimal form as in the frame,
    labelled [Slider #1] to [Slider #5] and followed by [mV], with
    [" | "] between neighbours.  The text holds exactly one line feed,
    its last character, and exactly four ['|']. *)
Theorem X11_debug_line (s : Board) (wire : string) :
  wf s ->
  exists f1 f2 f3 f4 f5 text,
    String_of_int <$> analogSliderValues s = [f1; f2; f3; f4; f5] /\
    frame_of (analogSliderValues s) =
      (f1 ++ "|" ++ f2 ++ "|" ++ f3 ++ "|" ++ f4 ++ "|" ++ f5)%string /\
    text =
      ("Slider #1: " ++ f1 ++ " mV | Slider #2: " ++ f2 ++ " mV | Slider #3: " ++ f3 ++
       " mV | Slider #4: " ++ f4 ++ " mV | Slider #5: " ++ f5 ++ " mV" ++ String LF "")%string /\
    printSliderValues wire s = Some ((wire ++ text)%string, s) /\
    count_char LF text = 1%nat /\
    last_char text = Some LF /\
    count_char "|" text = 4%nat.
Proof.
  intros Hwf. pose proof (printSliderValues_run wire s Hwf) as Hrun.
  destruct (wf_inv s Hwf) as (a & b & c & d & e & Hv). rewrite Hv in *.
  exists (String_of_int a), (String_of_int b), (String_of_int c), (String_of_int d),
    (String_of_int e).
  eexists. split; [reflexivity | split; [reflexivity | split; [reflexivity |]]].
  cbn [fmap list_fmap] in Hrun. rewrite debug_line_five in Hrun.
  split; [exact Hrun |].
  split; [| split].
  - rewrite !count_char_app, !String_of_int_count by reflexivity. reflexivity.
  - do 10 apply last_char_app. reflexivity.
  - rewrite !count_char_app, !String_of_int_bars. reflexivity.
Qed.

Lemma X11_debug_line_witness :
  wf (mkBoard 0 [512; 0; 1023; 256; 999] LOW LOW []) /\
  printSliderValues "" (mkBoard 0 [512; 0; 1023; 256; 999] LOW LOW []) =
  Some (("Slider #1: 512 mV | Slider #2: 0 mV | Slider #3: 1023 mV | " ++
         "Slider #4: 256 mV | Slider #5: 999 mV" ++ String LF "")%string,
        mkBoard 0 [512; 0; 1023; 256; 999] LOW LOW []).
Proof.
  split; [reflexivity |].
  destruct (X11_debug_line (mkBoard 0 [512; 0; 1023; 256; 999] LOW LOW []) "" eq_refl)
    as (f1 & f2 & f3 & f4 & f5 & text & Hf & _ & Ht & Hrun & _).
  rewrite Hrun, Ht. injection Hf as <- <- <- <- <-. reflexivity.
Defined.

(** ** How soon a release is reported *)

Lemma cycle_line_times_tight env t p2 p3 k :
  Forall (fun x => t + 120 <= x <= t + 120 + (if k is Switch2 then 0 else 50))
         (line_times (slot_line k) (cycle_trace env t p2 p3)).
Proof.
  destruct k; cycle_cases env t p2 p3; cbn;
    repeat (case_decide; try congruence); repeat constructor; lia.
Qed.

Lemma line_count_zero l (tr : list io_event) : line_count l tr = O -> line_times l tr = [].
Proof. unfold line_count. destruct (line_times l tr); [reflexivity | discriminate]. Qed.

Lemma released_at_low a t : t < a -> released_at a t = LOW.
Proof. unfold released_at. intros H. destruct (Z.ltb_spec t a); [reflexivity | lia]. Qed.

Lemma released_at_high a t : a <= t -> released_at a t = HIGH.
Proof. unfold released_at. intros H. destruct (Z.ltb_spec t a); [lia | reflexivity]. Qed.

Lemma quiet_after_release env k a :
  (forall t, gpio env (slot_pin k) t = released_at a t) ->
  forall n s, a <= millis s + 120 -> slot_state k s = HIGH ->
  line_times (slot_line k) (run_trace env n s) = [].
Proof.
  intros Hsig n s Ha Hst. apply line_count_zero.
  rewrite run_line_count, Hst, run_polled_map.
  rewrite (const_fmap _ _ HIGH).
  - rewrite <- (app_nil_r (replicate _ HIGH)). apply (rising_edges_same HIGH _ []).
  - intros i t Ht. rewrite Hsig. apply released_at_high.
    pose proof (run_poll_times_bound env n s k) as Hb.
    eapply Forall_lookup_1 in Hb; [| exact Ht]. cbn beta in Hb. lia.
Qed.

Lemma release_seen env k a :
  (forall t, gpio env (slot_pin k) t = released_at a t) ->
  forall m s, a <= millis s + 120 -> slot_state k s = LOW ->
  exists e,
    line_times (slot_line k) (run_trace env (S m) s) = [e] /\
    millis s + 120 <= e <= millis s + 120 + (if k is Switch2 then 0 else 50).
Proof.
  intros Hsig m s Ha Hst.
  rewrite run_trace_shift, line_times_app.
  rewrite (quiet_after_release env k a Hsig m (loop_result env s)); cycle 1.
  { pose proof (loop_result_millis env s). lia. }
  { rewrite loop_result_slot_state, Hsig. apply released_at_high, Ha. }
  rewrite app_nil_r.
  pose proof (cycle_line_count env (millis s) (prevSwitchState2 s) (prevSwitchState3 s) k) as Hc.
  pose proof (cycle_line_times_tight env (millis s) (prevSwitchState2 s) (prevSwitchState3 s) k)
    as Ht.
  replace (pick k (prevSwitchState2 s) (prevSwitchState3 s)) with LOW in Hc
    by (destruct k; symmetry; exact Hst).
  rewrite Hsig, released_at_high in Hc by exact Ha. unfold line_count in Hc.
  destruct (line_times (slot_line k) _) as [| e [| e' l]]; try discriminate Hc.
  exists e. split; [reflexivity |]. apply Forall_cons in Ht as [Ht _]. exact Ht.
Qed.

Lemma release_latency_run env k a :
  (forall t, gpio env (slot_pin k) t = released_at a t) ->
  forall n s, millis s + 120 < a -> a <= millis s + 140 * Z.of_nat n - 20 ->
  exists e,
    line_times (slot_line k) (run_trace env n s) = [e] /\
    a <= e < a + 240 + (if k is Switch2 then 0 else 50).
Proof.
  intros Hsig. induction n as [| n IH]; intros s Ha Hn; [lia |].
  pose proof (loop_result_millis env s) as Hm.
  assert (Hlow : slot_state k (loop_result env s) = LOW).
  { rewrite loop_result_slot_state, Hsig. apply released_at_low, Ha. }
  assert (Hquiet : line_times (slot_line k)
            (cycle_trace env (millis s) (prevSwitchState2 s) (prevSwitchState3 s)) = []).
  { apply line_count_zero. rewrite cycle_line_count, Hsig, released_at_low by exact Ha.
    destruct (pick k _ _); reflexivity. }
  rewrite run_trace_shift, line_times_app, Hquiet. cbn [app].
  destruct (Z_lt_le_dec (millis (loop_result env s) + 120) a) as [Hbefore | Hafter].
  - apply IH; [exact Hbefore | lia].
  - destruct n as [| m]; [lia |].
    destruct (release_seen env k a Hsig m (loop_result env s) Hafter Hlow) as (e & He & Hb).
    exists e. split; [exact He |]. destruct k; lia.
Qed.

(** X12. A release is reported once and soon.  Let a switch read [LOW]
    until instant [a] and [HIGH] from then on, with at least one poll
    before [a].  Once [loop] has run long enough to poll at or after
    [a], it has printed exactly one event line for that switch, neither
    before [a] nor 240 ms or more after it for switch 2 (290 ms for
    switch 3), whatever the stored state was and whatever the other
    switch does. *)
Theorem X12_release_latency (env : Env) (n : nat) (s : Board) (k : slot) (a : Z) :
  wf s ->
  millis s + 120 < a -> a <= millis s + 140 * Z.of_nat n - 20 ->
  (forall t, gpio env (slot_pin k) t = released_at a t) ->
  exists s' tr e,
    cycles env n s = Some (tt, s') /\ trace s' = trace s ++ tr /\
    line_times (slot_line k) tr = [e] /\
    a <= e < a + 240 + (if k is Switch2 then 0 else 50).
Proof.
  intros Hwf Ha Hn Hsig. destruct (cycles_logs env n s Hwf) as (Hrun & _ & Htr).
  destruct (release_latency_run env k a Hsig n s Ha Hn) as (e & He & Hb).
  eexists _, _, e. split; [exact Hrun | split; [exact Htr | split; [exact He | exact Hb]]].
Qed.

Lemma X12_release_latency_witness :
  wf power_on /\
  exists s' tr e,
    cycles env_wander 4 power_on = Some (tt, s') /\
    line_times "WORKS 1" tr = [e] /\ 500 <= e < 790.
Proof.
  split; [reflexivity |].
  destruct (X12_release_latency env_wander 4 power_on Switch3 500 eq_refl)
    as (s' & tr & e & Hrun & _ & He & Hb); [cbn; lia | cbn; lia | intros t; reflexivity |].
  exists s', tr, e. split; [exact Hrun | split; [exact He | exact Hb]].
Defined.
